(** * ESP32 vibration / gas sensor client: sampling and publishing loop

    A shallow embedding of [docs/ESP32_CLIENT_EXAMPLE.cpp].  The sketch keeps
    its data in global variables, reads the millisecond counter once per
    iteration of [loop()], samples the two sensors every [READ_INTERVAL]
    milliseconds and posts the latest sample as JSON every [SEND_INTERVAL]
    milliseconds.

    The globals are a record, the hardware and the network are an
    environment read by each iteration, and the calls made on the serial
    port, the pins and the HTTP client are collected in a trace.  [setup()]
    configures the pins and waits for the WiFi link; it touches no global,
    so every run starts from the initial values of the globals. *)

From Stdlib Require Import ZArith List String Ascii Bool Lia DecimalString.
Import ListNotations.

Local Open Scope string_scope.
Local Open Scope list_scope.
Local Open Scope Z_scope.

(** ** Machine integers

    On the ESP32 [unsigned long] and [int] are 32 bits wide.  Unsigned
    arithmetic is modulo [2^32]; the increment of an [int] is modelled with
    the two's-complement wrap the target performs. *)

Module Word.

Definition ULONG_MOD : Z := 2 ^ 32.
Definition INT_MAX : Z := 2147483647.
Definition INT_MIN : Z := -2147483648.

Definition wrap_ulong (z : Z) : Z := z mod ULONG_MOD.

Definition wrap_int (z : Z) : Z := (z - INT_MIN) mod ULONG_MOD + INT_MIN.

(** [a - b] on [unsigned long] operands. *)
Definition ulong_sub (a b : Z) : Z := wrap_ulong (a - b).

(** [!x] on an [int]. *)
Definition lnot (x : Z) : Z := if x =? 0 then 1 else 0.

End Word.

Import Word.

(** ** Arduino [String] *)

(** The double-quote character (code 34), escaped in the literals of the
    sketch. *)
Definition dquote : string := String (ascii_of_nat 34) EmptyString.

(** [String(int)]: decimal digits, with a leading minus sign when negative. *)
Definition String_of_int (z : Z) : string := NilZero.string_of_int (Z.to_int z).

(** ** Configuration *)

Definition VIB_PIN : Z := 27.
Definition GAS_PIN : Z := 35.

Definition BACKEND_URL : string := "http://192.168.137.1:5000/ingest_esp32".
Definition DEVICE_ID : string := "esp32_001".
Definition API_KEY : string := "_v13iKLTqgwxUe3SWta8x7PGvqjAYhkAWw63dhA6Nec".

Definition READ_INTERVAL : Z := 30.
Definition SEND_INTERVAL : Z := 200.

(** ** Global variables *)

Record globals : Type := mkGlobals {
  lastReadTime : Z;
  lastSendTime : Z;
  eventCount : Z;
  lastReading : Z;
  currentReading : Z;
  gasRaw : Z;
  gasStatus : string
}.

Definition initial : globals :=
  {| lastReadTime := 0; lastSendTime := 0;
     eventCount := 0; lastReading := 0; currentReading := 0;
     gasRaw := 0; gasStatus := "MEDIUM" |}.

Definition set_lastReadTime (v : Z) (g : globals) : globals :=
  mkGlobals v (lastSendTime g) (eventCount g) (lastReading g)
            (currentReading g) (gasRaw g) (gasStatus g).
Definition set_lastSendTime (v : Z) (g : globals) : globals :=
  mkGlobals (lastReadTime g) v (eventCount g) (lastReading g)
            (currentReading g) (gasRaw g) (gasStatus g).
Definition set_eventCount (v : Z) (g : globals) : globals :=
  mkGlobals (lastReadTime g) (lastSendTime g) v (lastReading g)
            (currentReading g) (gasRaw g) (gasStatus g).
Definition set_lastReading (v : Z) (g : globals) : globals :=
  mkGlobals (lastReadTime g) (lastSendTime g) (eventCount g) v
            (currentReading g) (gasRaw g) (gasStatus g).
Definition set_currentReading (v : Z) (g : globals) : globals :=
  mkGlobals (lastReadTime g) (lastSendTime g) (eventCount g) (lastReading g)
            v (gasRaw g) (gasStatus g).
Definition set_gasRaw (v : Z) (g : globals) : globals :=
  mkGlobals (lastReadTime g) (lastSendTime g) (eventCount g) (lastReading g)
            (currentReading g) v (gasStatus g).
Definition set_gasStatus (v : string) (g : globals) : globals :=
  mkGlobals (lastReadTime g) (lastSendTime g) (eventCount g) (lastReading g)
            (currentReading g) (gasRaw g) v.

(** ** The environment of one iteration

    What the hardware and the network answer during one call of [loop()]:
    the time since boot in milliseconds (unbounded; [millis()] returns it
    modulo [2^32]), the level of the vibration pin, the converted value of
    the gas pin, the WiFi link state, and the status code and body the HTTP
    client reports for a POST. *)

Record env : Type := mkEnv {
  clock_ms : Z;
  vib_level : Z;
  gas_level : Z;
  wifi_connected : bool;
  http_code : Z;
  http_response : string
}.

Definition millis (e : env) : Z := wrap_ulong (clock_ms e).

(** ** Observable calls *)

Inductive event : Type :=
| DigitalRead (pin : Z)
| AnalogRead (pin : Z)
| SerialPrint (s : string)
| SerialPrintln (s : string)
| HttpBegin (url : string)
| HttpAddHeader (name value : string)
| HttpPost (payload : string)
| HttpGetString
| HttpEnd.

(** ** State and trace monad *)

Definition M (A : Type) : Type := globals -> A * globals * list event.

Definition ret {A} (a : A) : M A := fun g => (a, g, []).

Definition bind {A B} (m : M A) (k : A -> M B) : M B :=
  fun g =>
    let '(a, g1, t1) := m g in
    let '(b, g2, t2) := k a g1 in
    (b, g2, t1 ++ t2).

Definition get : M globals := fun g => (g, g, []).
Definition modify (f : globals -> globals) : M unit := fun g => (tt, f g, []).
Definition emit (ev : event) : M unit := fun g => (tt, g, [ev]).

(** The globals and the trace a computation leaves behind. *)
Definition exec {A} (m : M A) (g : globals) : globals := snd (fst (m g)).
Definition trace {A} (m : M A) (g : globals) : list event := snd (m g).

Declare Scope sketch_scope.
Delimit Scope sketch_scope with sketch.
Notation "x <- m ;; k" := (bind m (fun x => k))
  (at level 61, m at next level, right associativity) : sketch_scope.
Notation "m ;; k" := (bind m (fun _ => k))
  (at level 61, right associativity) : sketch_scope.
Local Open Scope sketch_scope.

(** [when c m]: an [if (c) { m }] without an else branch. *)
Definition when (c : bool) (m : M unit) : M unit := if c then m else ret tt.

(** ** [sendToBackend()] *)

(** The string literal of the log line, byte for byte. *)
Definition http_log_prefix : string :=
  ("[ESP32 "
  ++ String (ascii_of_nat 195) (String (ascii_of_nat 162)
       (String (ascii_of_nat 226) (String (ascii_of_nat 128)
       (String (ascii_of_nat 160) (String (ascii_of_nat 226)
       (String (ascii_of_nat 128) (String (ascii_of_nat 153) EmptyString)))))))
  ++ " BACKEND] HTTP ")%string.

Definition build_payload (g : globals) : string :=
  (let payload := "{" in
   let payload := payload ++ (dquote ++ "device_id" ++ dquote ++ ":" ++ dquote)
                          ++ DEVICE_ID ++ (dquote ++ ",") in
   let payload := payload ++ (dquote ++ "vibration" ++ dquote ++ ":")
                          ++ String_of_int (currentReading g) ++ "," in
   let payload := payload ++ (dquote ++ "event_count" ++ dquote ++ ":")
                          ++ String_of_int (eventCount g) ++ "," in
   let payload := payload ++ (dquote ++ "gas_raw" ++ dquote ++ ":")
                          ++ String_of_int (gasRaw g) ++ "," in
   let payload := payload ++ (dquote ++ "gas_status" ++ dquote ++ ":" ++ dquote)
                          ++ gasStatus g ++ dquote in
   payload ++ "}")%string.

Definition sendToBackend (e : env) : M unit :=
  if negb (wifi_connected e) then
    emit (SerialPrintln "WiFi not connected")
  else
    emit (HttpBegin BACKEND_URL) ;;
    emit (HttpAddHeader "Content-Type" "application/json") ;;
    emit (HttpAddHeader "Authorization" ("Bearer " ++ API_KEY)%string) ;;
    g <- get ;;
    let payload := build_payload g in
    emit (HttpPost payload) ;;
    let httpCode := http_code e in
    emit (SerialPrint http_log_prefix) ;;
    emit (SerialPrintln (String_of_int httpCode)) ;;
    when (0 <? httpCode)
      (emit HttpGetString ;;
       emit (SerialPrintln (http_response e))) ;;
    emit HttpEnd.

(** ** [loop()] *)

Definition sample_due (now : Z) (g : globals) : bool :=
  READ_INTERVAL <=? ulong_sub now (lastReadTime g).

Definition publish_due (now : Z) (g : globals) : bool :=
  SEND_INTERVAL <=? ulong_sub now (lastSendTime g).

(** The body of the sensor-read branch. *)
Definition sample (e : env) (now : Z) : M unit :=
  modify (set_lastReadTime now) ;;
  emit (DigitalRead VIB_PIN) ;;
  let reading := lnot (vib_level e) in
  emit (AnalogRead GAS_PIN) ;;
  modify (set_gasRaw (gas_level e)) ;;
  modify (set_currentReading reading) ;;
  g <- get ;;
  when ((reading =? 1) && (lastReading g =? 0))
    (modify (set_eventCount (wrap_int (eventCount g + 1)))) ;;
  modify (set_lastReading reading) ;;
  g <- get ;;
  if 4000 <=? gasRaw g then modify (set_gasStatus "RISK")
  else if 3500 <=? gasRaw g then modify (set_gasStatus "WARNING")
  else modify (set_gasStatus "MEDIUM").

(** The body of the send branch. *)
Definition publish (e : env) (now : Z) : M unit :=
  modify (set_lastSendTime now) ;;
  sendToBackend e.

Definition loop (e : env) : M unit :=
  let now := millis e in
  g <- get ;;
  when (sample_due now g) (sample e now) ;;
  g <- get ;;
  when (publish_due now g) (publish e now).

(** The globals between the two branches of [loop]. *)
Definition after_sample (e : env) (g : globals) : globals :=
  if sample_due (millis e) g then exec (sample e (millis e)) g else g.

(** The status string the classification of [sample] assigns. *)
Definition classify (gas : Z) : string :=
  if 4000 <=? gas then "RISK" else if 3500 <=? gas then "WARNING" else "MEDIUM".

(** The sampled part and the timer part of the globals. *)
Definition SampleState (g : globals) : Z * Z * Z * Z * string :=
  (currentReading g, lastReading g, eventCount g, gasRaw g, gasStatus g).

Definition TimerState (g : globals) : Z * Z := (lastReadTime g, lastSendTime g).

(** ** Runs of the sketch *)

(** The globals after the iterations answered by [es], in order. *)
Fixpoint run (es : list env) (g : globals) : globals :=
  match es with
  | [] => g
  | e :: es' => run es' (exec (loop e) g)
  end.

(** The clock never goes back: every reading is at or after [t0] and the
    readings are in non-decreasing order. *)
Fixpoint clock_monotone (t0 : Z) (es : list env) : Prop :=
  match es with
  | [] => True
  | e :: es' => t0 <= clock_ms e /\ clock_monotone (clock_ms e) es'
  end.

(** The time of the last iteration of [es], or [t0] when there is none. *)
Fixpoint last_clock (t0 : Z) (es : list env) : Z :=
  match es with
  | [] => t0
  | e :: es' => last_clock (clock_ms e) es'
  end.

(** ** What reaches the backend

    [HTTPClient] keeps the URL given to [begin] and the headers added since;
    [POST] sends them with its payload, and [end] forgets them. *)

Record request : Type := mkRequest {
  req_method : string;
  req_url : string;
  req_headers : list (string * string);
  req_body : string
}.

Fixpoint requests_from (url : string) (hs : list (string * string))
         (t : list event) : list request :=
  match t with
  | [] => []
  | HttpBegin u :: t' => requests_from u [] t'
  | HttpAddHeader n v :: t' => requests_from url (hs ++ [(n, v)]) t'
  | HttpPost p :: t' => mkRequest "POST" url hs p :: requests_from url hs t'
  | HttpEnd :: t' => requests_from EmptyString [] t'
  | _ :: t' => requests_from url hs t'
  end.

Definition requests_of (t : list event) : list request :=
  requests_from EmptyString [] t.

Definition is_http_call (ev : event) : bool :=
  match ev with
  | HttpBegin _ | HttpAddHeader _ _ | HttpPost _ | HttpGetString | HttpEnd =>
      true
  | _ => false
  end.

Definition is_sensor_read (ev : event) : bool :=
  match ev with
  | DigitalRead _ | AnalogRead _ => true
  | _ => false
  end.

(** Serial output and HTTP client calls come from the send branch only. *)
Definition is_publish_call (ev : event) : bool := negb (is_sensor_read ev).

(** Whether an iteration took the sensor-read branch, respectively the send
    branch, as seen in its trace. *)
Definition sample_fires (e : env) (g : globals) : bool :=
  existsb is_sensor_read (trace (loop e) g).

Definition publish_fires (e : env) (g : globals) : bool :=
  existsb is_publish_call (trace (loop e) g).

(** The times at which the iterations of a run sampled, and published. *)
Fixpoint sample_times (es : list env) (g : globals) : list Z :=
  match es with
  | [] => []
  | e :: es' =>
      (if sample_fires e g then [clock_ms e] else [])
        ++ sample_times es' (exec (loop e) g)
  end.

Fixpoint publish_times (es : list env) (g : globals) : list Z :=
  match es with
  | [] => []
  | e :: es' =>
      (if publish_fires e g then [clock_ms e] else [])
        ++ publish_times es' (exec (loop e) g)
  end.

(** Every two neighbours of [ts] are at least [d] apart. *)
Fixpoint spaced (d : Z) (ts : list Z) : Prop :=
  match ts with
  | a :: ((b :: _) as ts') => d <= b - a /\ spaced d ts'
  | _ => True
  end.

(** ** Successive samples *)

(** The logical state of the active-low vibration input. *)
Definition triggered (e : env) : bool := lnot (vib_level e) =? 1.

(** [eventCount] after each of the sample steps answered by [es]. *)
Fixpoint sample_counts (es : list env) (g : globals) : list Z :=
  match es with
  | [] => []
  | e :: es' =>
      let g' := exec (sample e (millis e)) g in
      eventCount g' :: sample_counts es' g'
  end.

(** ** The specification's words *)

(** Rising-edge counting: one event for a transition from untriggered to
    triggered, none for the three other transitions. *)
Definition edge_increment (prev cur : bool) : Z :=
  match prev, cur with
  | false, true => 1
  | true, true => 0
  | false, false => 0
  | true, false => 0
  end.

Fixpoint edge_counts (prev : bool) (count : Z) (ts : list bool) : list Z :=
  match ts with
  | [] => []
  | t :: ts' =>
      let c := count + edge_increment prev t in
      c :: edge_counts t c ts'
  end.

Fixpoint rising_edges (prev : bool) (ts : list bool) : Z :=
  match ts with
  | [] => 0
  | t :: ts' => edge_increment prev t + rising_edges t ts'
  end.

(** The three tiers of the gas level. *)
Inductive tier : Type := MEDIUM | WARNING | RISK.

Definition tier_name (t : tier) : string :=
  match t with
  | MEDIUM => "MEDIUM"
  | WARNING => "WARNING"
  | RISK => "RISK"
  end.

Definition RISK_THRESHOLD : Z := 4000.
Definition WARNING_THRESHOLD : Z := 3500.

(** The wire format: a flat JSON object of strings and integers. *)
Inductive json_value : Type :=
| JString (s : string)
| JInt (z : Z).

Definition render_value (v : json_value) : string :=
  match v with
  | JString s => dquote ++ s ++ dquote
  | JInt z => String_of_int z
  end.

Definition render_field (f : string * json_value) : string :=
  dquote ++ fst f ++ dquote ++ ":" ++ render_value (snd f).

Definition render_object (fs : list (string * json_value)) : string :=
  "{" ++ String.concat "," (map render_field fs) ++ "}".

Definition publish_record (g : globals) : list (string * json_value) :=
  [ ("device_id", JString DEVICE_ID);
    ("vibration", JInt (currentReading g));
    ("event_count", JInt (eventCount g));
    ("gas_raw", JInt (gasRaw g));
    ("gas_status", JString (gasStatus g)) ].

(** A JSON text written with an apostrophe in place of each double quote. *)
Fixpoint json_text (s : string) : string :=
  match s with
  | EmptyString => EmptyString
  | String c s' =>
      String (if Ascii.eqb c (ascii_of_nat 39) then ascii_of_nat 34 else c)
             (json_text s')
  end.

(** What every run of the sketch keeps true of the sampled fields. *)
Definition sample_typed (g : globals) : Prop :=
  (currentReading g = 0 \/ currentReading g = 1)
  /\ lastReading g = currentReading g
  /\ (exists t : tier, gasStatus g = tier_name t).

(** ** Particular runs

    A run that counts one event every 400 ms: the input is found triggered
    200 ms after the previous round and released 200 ms later, so that both
    branches are due in every iteration. *)

Definition press (k : Z) : env :=
  mkEnv (400 * k + 200) 0 0 false 0 EmptyString.
Definition release (k : Z) : env :=
  mkEnv (400 * k + 400) 1 0 false 0 EmptyString.

Fixpoint edge_run (n : nat) : list env :=
  match n with
  | O => []
  | S k => edge_run k ++ [press (Z.of_nat k); release (Z.of_nat k)]
  end.

(** The globals after [n] such rounds. *)
Definition counted (n : Z) : globals :=
  {| lastReadTime := wrap_ulong (400 * n);
     lastSendTime := wrap_ulong (400 * n);
     eventCount := n;
     lastReading := 0;
     currentReading := 0;
     gasRaw := 0;
     gasStatus := "MEDIUM" |}.

(** The run of the scenario: three samples 30 ms apart that find the input
    triggered, released and triggered again, the last with the gas at 4000. *)
(** The body expected for vibration 1, two events, gas 4000 and RISK. *)
Definition scenario_body : string :=
  json_text
    "{'device_id':'esp32_001','vibration':1,'event_count':2,'gas_raw':4000,'gas_status':'RISK'}".

Definition scenario_run : list env :=
  [ mkEnv 30 0 3000 true 200 EmptyString;
    mkEnv 60 1 3000 true 200 EmptyString;
    mkEnv 90 0 4000 true 200 EmptyString ].

(** ** Whole runs: traces and requests *)

(** The calls made by the iterations of a run, in order. *)
Fixpoint run_trace (es : list env) (g : globals) : list event :=
  match es with
  | [] => []
  | e :: es' => trace (loop e) g ++ run_trace es' (exec (loop e) g)
  end.

(** The iterations of a run that took the sensor-read branch. *)
Fixpoint sampled (es : list env) (g : globals) : list env :=
  match es with
  | [] => []
  | e :: es' =>
      (if sample_fires e g then [e] else []) ++ sampled es' (exec (loop e) g)
  end.

(** The sensor-read branch alone, once per environment. *)
Fixpoint sample_steps (es : list env) (g : globals) : globals :=
  match es with
  | [] => g
  | e :: es' => sample_steps es' (exec (sample e (millis e)) g)
  end.

(** Discipline of the HTTP client calls in a trace: [begin] only on a
    closed client, every other call only between a [begin] and its [end],
    and the client closed when the trace ends.  [opened] tells whether a
    [begin] is pending. *)
Fixpoint http_bracketed (opened : bool) (t : list event) : bool :=
  match t with
  | [] => negb opened
  | HttpBegin _ :: t' => negb opened && http_bracketed true t'
  | HttpEnd :: t' => opened && http_bracketed false t'
  | HttpAddHeader _ _ :: t' => opened && http_bracketed true t'
  | HttpPost _ :: t' => opened && http_bracketed true t'
  | HttpGetString :: t' => opened && http_bracketed true t'
  | _ :: t' => http_bracketed opened t'
  end.

(** Two environments that differ at most in what the network answers. *)
Definition same_sensors (e1 e2 : env) : Prop :=
  clock_ms e1 = clock_ms e2
  /\ vib_level e1 = vib_level e2
  /\ gas_level e1 = gas_level e2.

(** The sampled fields agree with each other: the reading is a bit, the
    previous reading is the current one, and the status is the tier of the
    stored gas value. *)
Definition sample_consistent (g : globals) : Prop :=
  (currentReading g = 0 \/ currentReading g = 1)
  /\ lastReading g = currentReading g
  /\ gasStatus g = classify (gasRaw g).

(** ** [setup()]

    The answers of the successive [WiFi.status()] polls are a list of
    booleans ([true] for [WL_CONNECTED]); [setup] consumes them until one
    is [true].  The result is the calls made and, when [setup] returns, the
    answers left over; [None] means that the answers ran out with the
    sketch still waiting. *)

Definition WIFI_SSID : string := "LAPTOP-20AQM9CG 1278".
Definition WIFI_PASS : string := "23456789".

Inductive pin_mode : Type := INPUT | INPUT_PULLUP.

Inductive boot_event : Type :=
| SerialBegin (baud : Z)
| PinMode (pin : Z) (mode : pin_mode)
| WifiModeSta
| WifiBegin (ssid pass : string)
| WifiStatus
| Delay (ms : Z)
| BootPrint (s : string)
| BootPrintln (s : string)
| WifiLocalIP.

(** The [while (WiFi.status() != WL_CONNECTED)] loop. *)
Fixpoint wait_connected (polls : list bool)
  : list boot_event * option (list bool) :=
  match polls with
  | [] => ([], None)
  | connected :: rest =>
      if connected then ([WifiStatus], Some rest)
      else
        let '(t, r) := wait_connected rest in
        (WifiStatus :: Delay 500 :: BootPrint "." :: t, r)
  end.

Definition setup (polls : list bool) (ip : string)
  : list boot_event * option (list bool) :=
  let before :=
    [ SerialBegin 115200;
      PinMode VIB_PIN INPUT_PULLUP;
      PinMode GAS_PIN INPUT;
      WifiModeSta;
      WifiBegin WIFI_SSID WIFI_PASS;
      BootPrint "Connecting to WiFi" ] in
  let '(t, r) := wait_connected polls in
  match r with
  | None => (before ++ t, None)
  | Some rest =>
      (before ++ t
       ++ [ BootPrintln (String (ascii_of_nat 10) "WiFi connected");
            BootPrint "ESP32 IP: ";
            WifiLocalIP;
            BootPrintln ip ],
       Some rest)
  end.

(** The milliseconds [setup] spends in [delay], and the dots it prints. *)
Fixpoint total_delay (t : list boot_event) : Z :=
  match t with
  | [] => 0
  | Delay ms :: t' => ms + total_delay t'
  | _ :: t' => total_delay t'
  end.

Definition is_dot (ev : boot_event) : bool :=
  match ev with
  | BootPrint s => String.eqb s "."
  | _ => false
  end.

Definition is_connected_line (ev : boot_event) : bool :=
  match ev with
  | BootPrintln s => String.eqb s (String (ascii_of_nat 10) "WiFi connected")
  | _ => false
  end.

(** * Properties *)

(** ** The monad *)

Section Monad_laws.

Context {A B : Type}.

Lemma exec_bind (m : M A) (k : A -> M B) (g : globals) :
  exec (bind m k) g = exec (k (fst (fst (m g)))) (exec m g).
Proof.
  unfold exec, bind. destruct (m g) as [[a g1] t1]. cbn [fst snd].
  destruct (k a g1) as [[b g2] t2]. reflexivity.
Qed.

Lemma trace_bind (m : M A) (k : A -> M B) (g : globals) :
  trace (bind m k) g = trace m g ++ trace (k (fst (fst (m g)))) (exec m g).
Proof.
  unfold trace, exec, bind. destruct (m g) as [[a g1] t1]. cbn [fst snd].
  destruct (k a g1) as [[b g2] t2]. reflexivity.
Qed.

End Monad_laws.

Lemma exec_when (c : bool) (m : M unit) (g : globals) :
  exec (when c m) g = if c then exec m g else g.
Proof. destruct c; reflexivity. Qed.

Lemma trace_when (c : bool) (m : M unit) (g : globals) :
  trace (when c m) g = if c then trace m g else [].
Proof. destruct c; reflexivity. Qed.

Lemma exec_get (g : globals) : exec get g = g.
Proof. reflexivity. Qed.

Lemma value_get (g : globals) : fst (fst (get g)) = g.
Proof. reflexivity. Qed.

Lemma trace_get (g : globals) : trace get g = [].
Proof. reflexivity. Qed.

Lemma exec_modify (f : globals -> globals) (g : globals) :
  exec (modify f) g = f g.
Proof. reflexivity. Qed.

Lemma trace_modify (f : globals -> globals) (g : globals) :
  trace (modify f) g = [].
Proof. reflexivity. Qed.

Lemma exec_emit (ev : event) (g : globals) : exec (emit ev) g = g.
Proof. reflexivity. Qed.

Lemma trace_emit (ev : event) (g : globals) : trace (emit ev) g = [ev].
Proof. reflexivity. Qed.

Lemma exec_ret {A} (a : A) (g : globals) : exec (ret a) g = g.
Proof. reflexivity. Qed.

Lemma trace_ret {A} (a : A) (g : globals) : trace (ret a) g = [].
Proof. reflexivity. Qed.

(** Symbolic execution of a computation, one call at a time. *)
Ltac sketch_step :=
  first
    [ rewrite exec_bind | rewrite trace_bind
    | rewrite exec_get | rewrite value_get | rewrite trace_get
    | rewrite exec_modify | rewrite trace_modify
    | rewrite exec_emit | rewrite trace_emit
    | rewrite exec_when | rewrite trace_when
    | rewrite exec_ret | rewrite trace_ret ];
  cbv beta.

Ltac sketch_run := repeat sketch_step.

Ltac simpl_globals :=
  cbn [lastReadTime lastSendTime eventCount lastReading currentReading
       gasRaw gasStatus
       set_lastReadTime set_lastSendTime set_eventCount set_lastReading
       set_currentReading set_gasRaw set_gasStatus] in *.

(** ** Machine integers *)

Lemma wrap_int_in_range (z : Z) :
  INT_MIN <= z <= INT_MAX -> wrap_int z = z.
Proof.
  unfold wrap_int, INT_MIN, INT_MAX, ULONG_MOD. intros H.
  rewrite Z.mod_small by lia. lia.
Qed.

Lemma wrap_int_bounds (z : Z) : INT_MIN <= wrap_int z <= INT_MAX.
Proof.
  unfold wrap_int, INT_MIN, INT_MAX, ULONG_MOD.
  pose proof (Z.mod_pos_bound (z - -2147483648) (2 ^ 32)). lia.
Qed.

Lemma wrap_ulong_bounds (z : Z) : 0 <= wrap_ulong z < ULONG_MOD.
Proof. unfold wrap_ulong, ULONG_MOD. apply Z.mod_pos_bound. lia. Qed.

Lemma wrap_ulong_small (z : Z) : 0 <= z < ULONG_MOD -> wrap_ulong z = z.
Proof. unfold wrap_ulong. apply Z.mod_small. Qed.

(** The difference of two counter readings is the elapsed time modulo
    [2^32], whether or not the counter wrapped in between. *)
Lemma ulong_sub_wrap (t t0 : Z) :
  ulong_sub (wrap_ulong t) (wrap_ulong t0) = wrap_ulong (t - t0).
Proof.
  unfold ulong_sub, wrap_ulong. symmetry. apply Zminus_mod.
Qed.

Lemma ulong_sub_elapsed (t t0 : Z) :
  0 <= t - t0 < ULONG_MOD ->
  ulong_sub (wrap_ulong t) (wrap_ulong t0) = t - t0.
Proof.
  intros H. rewrite ulong_sub_wrap. now apply wrap_ulong_small.
Qed.

Lemma wrap_ulong_le (d : Z) : 0 <= d -> wrap_ulong d <= d.
Proof.
  intros H. unfold wrap_ulong, ULONG_MOD. apply Z.mod_le; lia.
Qed.

(** ** Strings *)

Lemma append_assoc (a b c : string) :
  ((a ++ b) ++ c)%string = (a ++ b ++ c)%string.
Proof.
  induction a as [|x a IH]; cbn; [reflexivity | now rewrite IH].
Qed.

Lemma build_payload_render (g : globals) :
  build_payload g = render_object (publish_record g).
Proof.
  unfold build_payload, render_object, publish_record, render_field,
    render_value.
  cbn [map String.concat fst snd].
  repeat rewrite append_assoc. reflexivity.
Qed.

(** ** One sample step *)

Lemma sample_exec (e : env) (now : Z) (g : globals) :
  exec (sample e now) g =
  {| lastReadTime := now;
     lastSendTime := lastSendTime g;
     eventCount :=
       if (lnot (vib_level e) =? 1) && (lastReading g =? 0)
       then wrap_int (eventCount g + 1) else eventCount g;
     lastReading := lnot (vib_level e);
     currentReading := lnot (vib_level e);
     gasRaw := gas_level e;
     gasStatus := classify (gas_level e) |}.
Proof.
  unfold classify, sample. sketch_run. simpl_globals.
  destruct ((lnot (vib_level e) =? 1) && (lastReading g =? 0));
    simpl_globals;
    destruct (4000 <=? gas_level e); sketch_run; try reflexivity;
    destruct (3500 <=? gas_level e); sketch_run; reflexivity.
Qed.

Lemma sample_trace (e : env) (now : Z) (g : globals) :
  trace (sample e now) g = [DigitalRead VIB_PIN; AnalogRead GAS_PIN].
Proof.
  unfold sample. sketch_run. simpl_globals.
  destruct ((lnot (vib_level e) =? 1) && (lastReading g =? 0));
    simpl_globals;
    destruct (4000 <=? gas_level e); sketch_run; try reflexivity;
    destruct (3500 <=? gas_level e); sketch_run; reflexivity.
Qed.

(** ** [sendToBackend] *)

Lemma sendToBackend_exec (e : env) (g : globals) :
  exec (sendToBackend e) g = g.
Proof.
  unfold sendToBackend.
  destruct (wifi_connected e); cbn [negb]; sketch_run; [|reflexivity].
  destruct (0 <? http_code e); sketch_run; reflexivity.
Qed.

Lemma sendToBackend_offline (e : env) (g : globals) :
  wifi_connected e = false ->
  trace (sendToBackend e) g = [SerialPrintln "WiFi not connected"].
Proof.
  intros H. unfold sendToBackend. rewrite H. reflexivity.
Qed.

Lemma sendToBackend_online (e : env) (g : globals) :
  wifi_connected e = true ->
  trace (sendToBackend e) g =
  [ HttpBegin BACKEND_URL;
    HttpAddHeader "Content-Type" "application/json";
    HttpAddHeader "Authorization" ("Bearer " ++ API_KEY)%string;
    HttpPost (build_payload g);
    SerialPrint http_log_prefix;
    SerialPrintln (String_of_int (http_code e)) ]
  ++ (if 0 <? http_code e
      then [HttpGetString; SerialPrintln (http_response e)] else [])
  ++ [HttpEnd].
Proof.
  intros H. unfold sendToBackend. rewrite H. cbn [negb]. sketch_run.
  destruct (0 <? http_code e); sketch_run; reflexivity.
Qed.

(** ** One iteration *)

Lemma loop_exec (e : env) (g : globals) :
  exec (loop e) g =
  if publish_due (millis e) (after_sample e g)
  then set_lastSendTime (millis e) (after_sample e g)
  else after_sample e g.
Proof.
  unfold loop, publish, after_sample. sketch_run.
  destruct (publish_due _ _); [|reflexivity].
  sketch_run. now rewrite sendToBackend_exec.
Qed.

Lemma loop_trace (e : env) (g : globals) :
  trace (loop e) g =
  (if sample_due (millis e) g then [DigitalRead VIB_PIN; AnalogRead GAS_PIN]
   else [])
  ++ (if publish_due (millis e) (after_sample e g)
      then trace (sendToBackend e)
                 (set_lastSendTime (millis e) (after_sample e g))
      else []).
Proof.
  unfold loop, publish, after_sample. sketch_run.
  rewrite sample_trace.
  destruct (publish_due _ _); [|reflexivity].
  sketch_run. reflexivity.
Qed.

Lemma after_sample_lastSendTime (e : env) (g : globals) :
  lastSendTime (after_sample e g) = lastSendTime g.
Proof.
  unfold after_sample. destruct (sample_due _ _); [|reflexivity].
  now rewrite sample_exec.
Qed.

Lemma publish_due_after_sample (e : env) (now : Z) (g : globals) :
  publish_due now (after_sample e g) = publish_due now g.
Proof. unfold publish_due. now rewrite after_sample_lastSendTime. Qed.

Lemma publish_exec (e : env) (now : Z) (g : globals) :
  exec (publish e now) g = set_lastSendTime now g.
Proof. unfold publish. sketch_run. now rewrite sendToBackend_exec. Qed.

Lemma publish_trace (e : env) (now : Z) (g : globals) :
  trace (publish e now) g = trace (sendToBackend e) (set_lastSendTime now g).
Proof. unfold publish. sketch_run. reflexivity. Qed.

Lemma sendToBackend_requests (e : env) (g : globals) :
  wifi_connected e = true ->
  requests_of (trace (sendToBackend e) g) =
  [ {| req_method := "POST";
       req_url := BACKEND_URL;
       req_headers := [ ("Content-Type", "application/json");
                        ("Authorization", ("Bearer " ++ API_KEY)%string) ];
       req_body := build_payload g |} ].
Proof.
  intros H. rewrite (sendToBackend_online e g H).
  destruct (0 <? http_code e); reflexivity.
Qed.

Lemma requests_from_sensor_reads (url : string) (hs : list (string * string))
      (t : list event) :
  requests_from url hs ([DigitalRead VIB_PIN; AnalogRead GAS_PIN] ++ t)
  = requests_from url hs t.
Proof. reflexivity. Qed.

(** ** Gas classification *)

(** C2. A sample step stores the analog reading in [gasRaw] and sets
    [gasStatus] to RISK when the reading is at least 4000, to WARNING when it
    is at least 3500 and below 4000, and to MEDIUM when it is below 3500; a
    reading equal to a threshold falls into the higher tier. *)
Theorem gas_status_tiers (e : env) (now : Z) (g : globals) :
  let g' := exec (sample e now) g in
  gasRaw g' = gas_level e
  /\ (RISK_THRESHOLD <= gasRaw g' -> gasStatus g' = tier_name RISK)
  /\ (WARNING_THRESHOLD <= gasRaw g' < RISK_THRESHOLD ->
      gasStatus g' = tier_name WARNING)
  /\ (gasRaw g' < WARNING_THRESHOLD -> gasStatus g' = tier_name MEDIUM).
Proof.
  cbv zeta. rewrite sample_exec. simpl_globals.
  unfold classify, RISK_THRESHOLD, WARNING_THRESHOLD, tier_name.
  repeat split; intros H;
    destruct (Z.leb_spec 4000 (gas_level e));
    destruct (Z.leb_spec 3500 (gas_level e)); solve [reflexivity | lia].
Qed.

(** The four readings of the scenario: 3400, 3500, 3999 and 4000. *)
Lemma gas_status_tiers_scenario :
  let reading gas := mkEnv 30 1 gas true 200 EmptyString in
  let status gas := gasStatus (exec (sample (reading gas) 30) initial) in
  status 3400 = "MEDIUM" /\ status 3500 = "WARNING"
  /\ status 3999 = "WARNING" /\ status 4000 = "RISK".
Proof.
  cbv zeta. split; [|split; [|split]].
  - apply (gas_status_tiers (mkEnv 30 1 3400 true 200 EmptyString) 30 initial).
    rewrite sample_exec. unfold WARNING_THRESHOLD. simpl. lia.
  - apply (gas_status_tiers (mkEnv 30 1 3500 true 200 EmptyString) 30 initial).
    rewrite sample_exec. unfold WARNING_THRESHOLD, RISK_THRESHOLD. simpl. lia.
  - apply (gas_status_tiers (mkEnv 30 1 3999 true 200 EmptyString) 30 initial).
    rewrite sample_exec. unfold WARNING_THRESHOLD, RISK_THRESHOLD. simpl. lia.
  - apply (gas_status_tiers (mkEnv 30 1 4000 true 200 EmptyString) 30 initial).
    rewrite sample_exec. unfold RISK_THRESHOLD. simpl. lia.
Defined.

(** ** The publisher leaves the sample alone *)

(** C8. [sendToBackend] changes none of [currentReading], [lastReading],
    [eventCount], [gasRaw] and [gasStatus], connected or not; neither does the
    whole send branch, which only stores the time in [lastSendTime]: after an
    iteration the sampled state is the one the sensor-read branch left. *)
Theorem sendToBackend_preserves_sample (e : env) (now : Z) (g : globals) :
  let g' := exec (sendToBackend e) g in
  (currentReading g' = currentReading g
   /\ lastReading g' = lastReading g
   /\ eventCount g' = eventCount g
   /\ gasRaw g' = gasRaw g
   /\ gasStatus g' = gasStatus g)
  /\ SampleState (exec (publish e now) g) = SampleState g
  /\ SampleState (exec (loop e) g) = SampleState (after_sample e g).
Proof.
  cbv zeta. rewrite sendToBackend_exec, publish_exec, loop_exec.
  destruct (publish_due _ _); repeat split; reflexivity.
Qed.

(** ** Publishing without a link *)

Lemma no_http_no_request (t : list event) :
  forallb (fun ev => negb (is_http_call ev)) t = true ->
  forall url hs, requests_from url hs t = [].
Proof.
  induction t as [|ev t IH]; intros H url hs; [reflexivity|].
  cbn [forallb] in H. apply andb_prop in H. destruct H as [Hev Ht].
  destruct ev; cbn in Hev; try discriminate; cbn [requests_from]; now apply IH.
Qed.

(** C4. When the send branch is due and the WiFi link is down, the branch
    stores the clock reading in [lastSendTime], changes nothing else and
    prints one line; the iteration makes no HTTP client call and sends no
    request; and the next send is due a full interval after this reading,
    so the missed window is not made up for. *)
Theorem publish_without_link (e : env) (g : globals) :
  wifi_connected e = false ->
  publish_due (millis e) g = true ->
  exec (publish e (millis e)) g = set_lastSendTime (millis e) g
  /\ trace (publish e (millis e)) g = [SerialPrintln "WiFi not connected"]
  /\ exec (loop e) g = set_lastSendTime (millis e) (after_sample e g)
  /\ forallb (fun ev => negb (is_http_call ev)) (trace (loop e) g) = true
  /\ requests_of (trace (loop e) g) = []
  /\ forall e' : env,
       publish_due (millis e') (exec (loop e) g)
       = (SEND_INTERVAL <=? ulong_sub (millis e') (millis e)).
Proof.
  intros Hoff Hdue.
  assert (Hloop : exec (loop e) g
                  = set_lastSendTime (millis e) (after_sample e g)).
  { rewrite loop_exec, publish_due_after_sample, Hdue. reflexivity. }
  assert (Htrace : forallb (fun ev => negb (is_http_call ev))
                           (trace (loop e) g) = true).
  { rewrite loop_trace, publish_due_after_sample, Hdue.
    rewrite sendToBackend_offline by assumption.
    destruct (sample_due _ _); reflexivity. }
  split; [apply publish_exec|].
  split; [rewrite publish_trace; now apply sendToBackend_offline|].
  split; [exact Hloop|].
  split; [exact Htrace|].
  split; [now apply no_http_no_request|].
  intros e'. rewrite Hloop. reflexivity.
Qed.

(** A send that falls due at 200 ms with the link down, right after a
    sample. *)
Lemma publish_without_link_witness :
  let e := mkEnv 200 0 3600 false 0 EmptyString in
  exec (loop e) initial
  = {| lastReadTime := 200; lastSendTime := 200; eventCount := 1;
       lastReading := 1; currentReading := 1; gasRaw := 3600;
       gasStatus := "WARNING" |}
  /\ requests_of (trace (loop e) initial) = [].
Proof.
  cbv zeta.
  destruct (publish_without_link (mkEnv 200 0 3600 false 0 EmptyString) initial)
    as (_ & _ & Hexec & _ & Hreq & _).
  - reflexivity.
  - vm_compute. reflexivity.
  - split; [rewrite Hexec; vm_compute; reflexivity | exact Hreq].
Defined.

(** ** Order of the two branches *)

Lemma build_payload_set_lastSendTime (now : Z) (g : globals) :
  build_payload (set_lastSendTime now g) = build_payload g.
Proof. reflexivity. Qed.

(** What an iteration in which both branches are due does, call by call:
    the two pin reads, then the calls of [sendToBackend] on the globals the
    sensor-read branch has just written. *)
Lemma both_due_calls (e : env) (g : globals) :
  sample_due (millis e) g = true ->
  publish_due (millis e) g = true ->
  let reading := lnot (vib_level e) in
  let count :=
    if (reading =? 1) && (lastReading g =? 0)
    then wrap_int (eventCount g + 1) else eventCount g in
  let status :=
    if 4000 <=? gas_level e then "RISK"
    else if 3500 <=? gas_level e then "WARNING" else "MEDIUM" in
  let body :=
    render_object
      [ ("device_id", JString DEVICE_ID);
        ("vibration", JInt reading);
        ("event_count", JInt count);
        ("gas_raw", JInt (gas_level e));
        ("gas_status", JString status) ] in
  exec (loop e) g
  = {| lastReadTime := millis e;
       lastSendTime := millis e;
       eventCount := count;
       lastReading := reading;
       currentReading := reading;
       gasRaw := gas_level e;
       gasStatus := status |}
  /\ trace (loop e) g
     = [DigitalRead VIB_PIN; AnalogRead GAS_PIN]
         ++ (if wifi_connected e
             then
               [ HttpBegin BACKEND_URL;
                 HttpAddHeader "Content-Type" "application/json";
                 HttpAddHeader "Authorization" ("Bearer " ++ API_KEY)%string;
                 HttpPost body;
                 SerialPrint http_log_prefix;
                 SerialPrintln (String_of_int (http_code e)) ]
               ++ (if 0 <? http_code e
                   then [HttpGetString; SerialPrintln (http_response e)]
                   else [])
               ++ [HttpEnd]
             else [SerialPrintln "WiFi not connected"]).
Proof.
  intros Hs Hp. cbv zeta.
  assert (Ha : after_sample e g = exec (sample e (millis e)) g).
  { unfold after_sample. now rewrite Hs. }
  split.
  - rewrite loop_exec, publish_due_after_sample, Hp, Ha, sample_exec.
    reflexivity.
  - rewrite loop_trace, publish_due_after_sample, Hs, Hp, Ha.
    f_equal. destruct (wifi_connected e) eqn:Hw.
    + rewrite sendToBackend_online by assumption.
      rewrite build_payload_set_lastSendTime, build_payload_render.
      rewrite sample_exec. reflexivity.
    + now apply sendToBackend_offline.
Qed.

(** C9. In every iteration in which both branches are due, link up or
    down, the two pins are read and the edge detection and the
    classification are stored before any call of [sendToBackend]: the trace
    starts with the two reads, the globals after the iteration hold this
    iteration's reading, count and status, and with the link up the one
    request of the iteration has as its body the JSON object of exactly
    these values: the inverted pin level just read, the count after this
    iteration's edge test, the gas value just read and its tier. *)
Theorem sample_precedes_publish (e : env) (g : globals) :
  READ_INTERVAL <= ulong_sub (millis e) (lastReadTime g) ->
  SEND_INTERVAL <= ulong_sub (millis e) (lastSendTime g) ->
  let reading := lnot (vib_level e) in
  let count :=
    if (reading =? 1) && (lastReading g =? 0)
    then wrap_int (eventCount g + 1) else eventCount g in
  let status :=
    if 4000 <=? gas_level e then "RISK"
    else if 3500 <=? gas_level e then "WARNING" else "MEDIUM" in
  let body :=
    render_object
      [ ("device_id", JString DEVICE_ID);
        ("vibration", JInt reading);
        ("event_count", JInt count);
        ("gas_raw", JInt (gas_level e));
        ("gas_status", JString status) ] in
  exec (loop e) g
  = {| lastReadTime := millis e;
       lastSendTime := millis e;
       eventCount := count;
       lastReading := reading;
       currentReading := reading;
       gasRaw := gas_level e;
       gasStatus := status |}
  /\ trace (loop e) g
     = [DigitalRead VIB_PIN; AnalogRead GAS_PIN]
         ++ (if wifi_connected e
             then
               [ HttpBegin BACKEND_URL;
                 HttpAddHeader "Content-Type" "application/json";
                 HttpAddHeader "Authorization" ("Bearer " ++ API_KEY)%string;
                 HttpPost body;
                 SerialPrint http_log_prefix;
                 SerialPrintln (String_of_int (http_code e)) ]
               ++ (if 0 <? http_code e
                   then [HttpGetString; SerialPrintln (http_response e)]
                   else [])
               ++ [HttpEnd]
             else [SerialPrintln "WiFi not connected"])
  /\ (wifi_connected e = true ->
      requests_of (trace (loop e) g)
      = [ {| req_method := "POST";
             req_url := BACKEND_URL;
             req_headers :=
               [ ("Content-Type", "application/json");
                 ("Authorization", ("Bearer " ++ API_KEY)%string) ];
             req_body := body |} ]).
Proof.
  intros Hr Hp.
  assert (Hs : sample_due (millis e) g = true)
    by (unfold sample_due; now apply Z.leb_le).
  assert (Hd : publish_due (millis e) g = true)
    by (unfold publish_due; now apply Z.leb_le).
  destruct (both_due_calls e g Hs Hd) as [Hexec Htrace].
  cbv zeta in *.
  split; [exact Hexec|]. split; [exact Htrace|].
  intros Hon. rewrite Htrace, Hon.
  destruct (0 <? http_code e); reflexivity.
Qed.

(** From the initial globals (vibration 0, no event, gas 0, MEDIUM), an
    iteration at 200 ms that finds the input triggered and the gas at 4000
    reads the pins first and posts exactly the values just read. *)
Lemma sample_precedes_publish_witness :
  let e := mkEnv 200 0 4000 true 200 "ok" in
  firstn 3 (trace (loop e) initial)
  = [DigitalRead VIB_PIN; AnalogRead GAS_PIN; HttpBegin BACKEND_URL]
  /\ map req_body (requests_of (trace (loop e) initial))
     = [json_text "{'device_id':'esp32_001','vibration':1,'event_count':1,'gas_raw':4000,'gas_status':'RISK'}"].
Proof.
  cbv zeta.
  destruct (sample_precedes_publish (mkEnv 200 0 4000 true 200 "ok") initial)
    as (_ & Htrace & Hreq).
  - apply Z.leb_le. reflexivity.
  - apply Z.leb_le. reflexivity.
  - split.
    + rewrite Htrace. reflexivity.
    + rewrite Hreq by reflexivity. reflexivity.
Defined.

(** ** The due checks *)

Lemma sample_fires_due (e : env) (g : globals) :
  sample_fires e g = sample_due (millis e) g.
Proof.
  unfold sample_fires. rewrite loop_trace, existsb_app.
  assert (Hp : existsb is_sensor_read
                 (if publish_due (millis e) (after_sample e g)
                  then trace (sendToBackend e)
                         (set_lastSendTime (millis e) (after_sample e g))
                  else []) = false).
  { destruct (publish_due _ _); [|reflexivity].
    destruct (wifi_connected e) eqn:Hw.
    - rewrite sendToBackend_online by assumption.
      destruct (0 <? http_code e); reflexivity.
    - rewrite sendToBackend_offline by assumption. reflexivity. }
  rewrite Hp, orb_false_r. destruct (sample_due _ _); reflexivity.
Qed.

Lemma publish_fires_due (e : env) (g : globals) :
  publish_fires e g = publish_due (millis e) g.
Proof.
  unfold publish_fires.
  rewrite loop_trace, existsb_app, publish_due_after_sample.
  assert (Hs : existsb is_publish_call
                 (if sample_due (millis e) g
                  then [DigitalRead VIB_PIN; AnalogRead GAS_PIN] else [])
               = false).
  { destruct (sample_due _ _); reflexivity. }
  rewrite Hs, orb_false_l.
  destruct (publish_due (millis e) g); [|reflexivity].
  destruct (wifi_connected e) eqn:Hw.
  - rewrite sendToBackend_online by assumption. reflexivity.
  - rewrite sendToBackend_offline by assumption. reflexivity.
Qed.

(** C10. An iteration samples exactly when [now - lastReadTime], taken
    modulo [2^32], is at least [READ_INTERVAL], and publishes exactly when
    [now - lastSendTime], taken modulo [2^32], is at least [SEND_INTERVAL].
    When the timer holds the counter reading of an earlier time [t0] and
    less than [2^32] ms have passed since, that modular difference is the
    time really elapsed, whether or not the counter wrapped in between. *)
Theorem due_checks_modular (e : env) (g : globals) :
  sample_fires e g
  = (READ_INTERVAL <=? (millis e - lastReadTime g) mod 2 ^ 32)
  /\ publish_fires e g
    = (SEND_INTERVAL <=? (millis e - lastSendTime g) mod 2 ^ 32)
  /\ (forall t0 : Z,
        lastReadTime g = wrap_ulong t0 ->
        0 <= clock_ms e - t0 < 2 ^ 32 ->
        sample_fires e g = (READ_INTERVAL <=? clock_ms e - t0))
  /\ (forall t0 : Z,
        lastSendTime g = wrap_ulong t0 ->
        0 <= clock_ms e - t0 < 2 ^ 32 ->
        publish_fires e g = (SEND_INTERVAL <=? clock_ms e - t0)).
Proof.
  rewrite sample_fires_due, publish_fires_due.
  unfold sample_due, publish_due, millis.
  split; [reflexivity|]. split; [reflexivity|].
  split; intros t0 Ht Hel; rewrite Ht, ulong_sub_elapsed by exact Hel;
    reflexivity.
Qed.

(** The last sample was taken 10 ms before the counter wrapped and the
    last send 150 ms before; 35 ms later the counter reads 25, the sample
    is due and the send is not. *)
Lemma due_checks_modular_witness :
  let g := set_lastSendTime 4294967146 (set_lastReadTime 4294967286 initial) in
  let e := mkEnv 4294967321 1 0 true 200 EmptyString in
  millis e = 25 /\ sample_fires e g = true /\ publish_fires e g = false.
Proof.
  cbv zeta.
  pose proof (due_checks_modular
                (mkEnv 4294967321 1 0 true 200 EmptyString)
                (set_lastSendTime 4294967146
                   (set_lastReadTime 4294967286 initial)))
    as (_ & _ & Hs & Hp).
  split; [reflexivity|]. split.
  - rewrite (Hs 4294967286); [reflexivity | reflexivity | simpl; lia].
  - rewrite (Hp 4294967146); [reflexivity | reflexivity | simpl; lia].
Defined.

(** ** The request of a connected publish *)

Lemma lnot_bit (x : Z) : lnot x = 0 \/ lnot x = 1.
Proof. unfold lnot. destruct (x =? 0); auto. Qed.

Lemma classify_tier (gas : Z) : exists t : tier, classify gas = tier_name t.
Proof.
  unfold classify.
  destruct (4000 <=? gas); [now exists RISK|].
  destruct (3500 <=? gas); [now exists WARNING | now exists MEDIUM].
Qed.

Lemma sample_typed_initial : sample_typed initial.
Proof. repeat split; [now left | now exists MEDIUM]. Qed.

Lemma sample_typed_loop (e : env) (g : globals) :
  sample_typed g -> sample_typed (exec (loop e) g).
Proof.
  intros Hg. rewrite loop_exec.
  assert (Ha : sample_typed (after_sample e g)).
  { unfold after_sample. destruct (sample_due _ _); [|exact Hg].
    rewrite sample_exec. unfold sample_typed. simpl_globals.
    repeat split; [apply lnot_bit | apply classify_tier]. }
  destruct (publish_due _ _); exact Ha.
Qed.

Lemma sample_typed_run (es : list env) :
  forall g, sample_typed g -> sample_typed (run es g).
Proof.
  induction es as [|e es IH]; intros g Hg; cbn [run]; [exact Hg|].
  apply IH. now apply sample_typed_loop.
Qed.

(** C3. With the link up, [sendToBackend] sends exactly one request: a POST
    to the backend URL with the headers Content-Type: application/json and
    Authorization: Bearer followed by the API key, whose body is the JSON
    object with the five fields device_id, vibration, event_count, gas_raw
    and gas_status, in this order, filled from the globals.  In every state a
    run reaches, vibration is 0 or 1 and gas_status is one of the three
    status names.  With vibration 1, two events, gas 4000 and status RISK the
    body is the text of the scenario. *)
Theorem connected_publish_request (es : list env) (e : env) :
  wifi_connected e = true ->
  let g := run es initial in
  requests_of (trace (sendToBackend e) g)
  = [ {| req_method := "POST";
         req_url := BACKEND_URL;
         req_headers := [ ("Content-Type", "application/json");
                          ("Authorization", ("Bearer " ++ API_KEY)%string) ];
         req_body :=
           render_object
             [ ("device_id", JString DEVICE_ID);
               ("vibration", JInt (currentReading g));
               ("event_count", JInt (eventCount g));
               ("gas_raw", JInt (gasRaw g));
               ("gas_status", JString (gasStatus g)) ] |} ]
  /\ (currentReading g = 0 \/ currentReading g = 1)
  /\ (gasStatus g = "MEDIUM" \/ gasStatus g = "WARNING" \/ gasStatus g = "RISK")
  /\ (currentReading g = 1 -> eventCount g = 2 -> gasRaw g = 4000 ->
      gasStatus g = "RISK" ->
      map req_body (requests_of (trace (sendToBackend e) g))
      = [scenario_body]).
Proof.
  intros Hon g.
  pose proof (sample_typed_run es initial sample_typed_initial)
    as (Hbit & _ & [t Ht]).
  fold g in Hbit, Ht.
  rewrite (sendToBackend_requests e g Hon), build_payload_render.
  split; [reflexivity|]. split; [exact Hbit|]. split.
  - rewrite Ht. destruct t; cbn; auto.
  - intros Hv Hc Hr Hs. cbn [map req_body].
    unfold publish_record. rewrite Hv, Hc, Hr, Hs. reflexivity.
Qed.

(** The scenario itself: after [scenario_run] the globals hold vibration 1,
    two events, gas 4000 and RISK, and the request body is the expected
    text. *)
Lemma connected_publish_request_witness :
  let e := mkEnv 200 0 4000 true 200 "ok" in
  let g := run scenario_run initial in
  (currentReading g, eventCount g, gasRaw g, gasStatus g) = (1, 2, 4000, "RISK")
  /\ map req_body (requests_of (trace (sendToBackend e) g))
     = [scenario_body].
Proof.
  cbv zeta. split; [reflexivity|].
  apply (connected_publish_request scenario_run
           (mkEnv 200 0 4000 true 200 "ok")); reflexivity.
Defined.

(** ** Counting events *)

Lemma edge_increment_bounds (prev cur : bool) :
  0 <= edge_increment prev cur <= 1.
Proof. destruct prev, cur; cbn; lia. Qed.

Lemma rising_edges_nonneg (ts : list bool) :
  forall prev, 0 <= rising_edges prev ts.
Proof.
  induction ts as [|t ts IH]; intros prev; cbn [rising_edges]; [lia|].
  pose proof (edge_increment_bounds prev t). pose proof (IH t). lia.
Qed.

Lemma lnot_triggered (x : Z) : negb (lnot x =? 0) = (lnot x =? 1).
Proof. unfold lnot. destruct (x =? 0); reflexivity. Qed.

Lemma sample_eventCount (e : env) (now : Z) (g : globals) :
  eventCount (exec (sample e now) g)
  = if triggered e && (lastReading g =? 0)
    then wrap_int (eventCount g + 1) else eventCount g.
Proof. rewrite sample_exec. reflexivity. Qed.

(** Below [INT_MAX] the increment of the sketch is the increment of the
    specification. *)
Lemma sample_eventCount_edge (e : env) (now : Z) (g : globals) :
  INT_MIN <= eventCount g < INT_MAX ->
  eventCount (exec (sample e now) g)
  = eventCount g + edge_increment (negb (lastReading g =? 0)) (triggered e).
Proof.
  intros H. rewrite sample_eventCount.
  destruct (triggered e), (lastReading g =? 0); cbn; try lia.
  apply wrap_int_in_range. lia.
Qed.

Lemma sample_eventCount_no_edge (e : env) (now : Z) (g : globals) :
  edge_increment (negb (lastReading g =? 0)) (triggered e) = 0 ->
  eventCount (exec (sample e now) g) = eventCount g.
Proof.
  rewrite sample_eventCount.
  destruct (triggered e), (lastReading g =? 0); cbn; intros H;
    solve [reflexivity | discriminate].
Qed.

(** ** Runs *)

Lemma run_app (es1 es2 : list env) :
  forall g, run (es1 ++ es2) g = run es2 (run es1 g).
Proof.
  induction es1 as [|e es1 IH]; intros g; cbn [run app]; [reflexivity|].
  apply IH.
Qed.

Lemma last_clock_app (es1 es2 : list env) :
  forall t0, last_clock t0 (es1 ++ es2) = last_clock (last_clock t0 es1) es2.
Proof.
  induction es1 as [|e es1 IH]; intros t0; cbn [last_clock app];
    [reflexivity | apply IH].
Qed.

Lemma clock_monotone_app (es1 es2 : list env) :
  forall t0,
    clock_monotone t0 es1 ->
    clock_monotone (last_clock t0 es1) es2 ->
    clock_monotone t0 (es1 ++ es2).
Proof.
  induction es1 as [|e es1 IH]; intros t0 H1 H2; cbn [app]; [exact H2|].
  destruct H1 as [Hle H1]. split; [exact Hle|]. now apply IH.
Qed.

Lemma clock_monotone_last (es : list env) :
  forall t0, clock_monotone t0 es -> t0 <= last_clock t0 es.
Proof.
  induction es as [|e es IH]; intros t0 H; cbn [last_clock]; [lia|].
  destruct H as [Hle H]. specialize (IH _ H). lia.
Qed.

(** ** Reaching [INT_MAX] *)

Lemma loop_both_due (e : env) (g : globals) :
  sample_due (millis e) g = true ->
  publish_due (millis e) g = true ->
  exec (loop e) g = set_lastSendTime (millis e) (exec (sample e (millis e)) g).
Proof.
  intros Hs Hp. rewrite loop_exec, publish_due_after_sample, Hp.
  unfold after_sample. now rewrite Hs.
Qed.

Lemma wrap_ulong_later (t d : Z) :
  0 <= d < ULONG_MOD -> ulong_sub (wrap_ulong (t + d)) (wrap_ulong t) = d.
Proof.
  intros H. rewrite ulong_sub_wrap. replace (t + d - t) with d by lia.
  now apply wrap_ulong_small.
Qed.

Lemma press_counted (k : Z) :
  0 <= k < INT_MAX ->
  exec (loop (press k)) (counted k)
  = {| lastReadTime := wrap_ulong (400 * k + 200);
       lastSendTime := wrap_ulong (400 * k + 200);
       eventCount := k + 1;
       lastReading := 1;
       currentReading := 1;
       gasRaw := 0;
       gasStatus := "MEDIUM" |}.
Proof.
  intros Hk. rewrite loop_both_due.
  - rewrite sample_exec. unfold set_lastSendTime, millis, press, counted.
    simpl_globals. cbn [clock_ms vib_level gas_level].
    change (lnot 0) with 1. change (classify 0) with "MEDIUM".
    cbn [Z.eqb Pos.eqb andb].
    rewrite wrap_int_in_range by (unfold INT_MIN, INT_MAX in *; lia).
    reflexivity.
  - unfold sample_due, millis, press, counted. simpl_globals.
    cbn [clock_ms]. rewrite wrap_ulong_later by (unfold ULONG_MOD; lia).
    reflexivity.
  - unfold publish_due, millis, press, counted. simpl_globals.
    cbn [clock_ms]. rewrite wrap_ulong_later by (unfold ULONG_MOD; lia).
    reflexivity.
Qed.

Lemma press_release_counted (k : Z) :
  0 <= k < INT_MAX ->
  run [press k; release k] (counted k) = counted (k + 1).
Proof.
  intros Hk. cbn [run]. rewrite press_counted by exact Hk.
  rewrite loop_both_due.
  - rewrite sample_exec. unfold set_lastSendTime, millis, release, counted.
    simpl_globals. cbn [clock_ms vib_level gas_level].
    change (lnot 1) with 0. change (classify 0) with "MEDIUM".
    cbn [Z.eqb Pos.eqb andb].
    replace (400 * (k + 1)) with (400 * k + 400) by lia. reflexivity.
  - unfold sample_due, millis, release. simpl_globals. cbn [clock_ms].
    replace (400 * k + 400) with (400 * k + 200 + 200) by lia.
    rewrite wrap_ulong_later by (unfold ULONG_MOD; lia). reflexivity.
  - unfold publish_due, millis, release. simpl_globals. cbn [clock_ms].
    replace (400 * k + 400) with (400 * k + 200 + 200) by lia.
    rewrite wrap_ulong_later by (unfold ULONG_MOD; lia). reflexivity.
Qed.

Lemma edge_run_counted (n : nat) :
  Z.of_nat n <= INT_MAX ->
  clock_monotone 0 (edge_run n)
  /\ last_clock 0 (edge_run n) = 400 * Z.of_nat n
  /\ run (edge_run n) initial = counted (Z.of_nat n).
Proof.
  induction n as [|n IH]; intros Hn.
  - repeat split.
  - destruct IH as (Hmono & Hlast & Hrun); [lia|].
    cbn [edge_run]. rewrite last_clock_app, run_app, Hlast, Hrun.
    split; [|split].
    + apply clock_monotone_app; [exact Hmono|].
      rewrite Hlast. cbn [clock_monotone press release clock_ms]. lia.
    + cbn [last_clock release clock_ms]. lia.
    + rewrite press_release_counted by lia. f_equal. lia.
Qed.

(** Every count up to [INT_MAX] is reached by a run with a monotone clock. *)
Lemma counted_reachable (n : Z) :
  0 <= n <= INT_MAX ->
  exists es : list env,
    clock_monotone 0 es /\ last_clock 0 es = 400 * n
    /\ run es initial = counted n.
Proof.
  intros Hn. exists (edge_run (Z.to_nat n)).
  pose proof (edge_run_counted (Z.to_nat n)) as H.
  rewrite Z2Nat.id in H by lia. apply H. lia.
Qed.

(** ** Rising edges *)

Lemma sample_lastReading (e : env) (now : Z) (g : globals) :
  negb (lastReading (exec (sample e now) g) =? 0) = triggered e.
Proof. rewrite sample_exec. simpl_globals. apply lnot_triggered. Qed.

(** C1, amended.  As long as the count stays within [INT_MAX], successive
    sample steps count rising edges: each step adds one to [eventCount] when
    the triggered state (the inverted pin level) goes from false at the
    previous sample to true at this one, and adds nothing on the three other
    transitions. *)
Theorem event_count_rising_edges (es : list env) :
  forall g : globals,
    INT_MIN <= eventCount g ->
    eventCount g
      + rising_edges (negb (lastReading g =? 0)) (map triggered es) <= INT_MAX ->
    sample_counts es g
    = edge_counts (negb (lastReading g =? 0)) (eventCount g) (map triggered es).
Proof.
  induction es as [|e es IH]; intros g Hlo Hhi; [reflexivity|].
  cbn [map rising_edges] in Hhi.
  cbn [sample_counts map edge_counts]. cbv zeta.
  pose proof (edge_increment_bounds (negb (lastReading g =? 0)) (triggered e))
    as Hinc.
  pose proof (rising_edges_nonneg (map triggered es) (triggered e)) as Hrest.
  assert (Hstep : eventCount (exec (sample e (millis e)) g)
                  = eventCount g
                    + edge_increment (negb (lastReading g =? 0)) (triggered e)).
  { destruct (Z.eq_dec
                (edge_increment (negb (lastReading g =? 0)) (triggered e)) 0)
      as [H0|H1].
    - rewrite H0, Z.add_0_r. now apply sample_eventCount_no_edge.
    - apply sample_eventCount_edge. lia. }
  rewrite IH; rewrite ?sample_lastReading, ?Hstep; [reflexivity | lia | lia].
Qed.

(** The scenario: the triggered states 0,0,1,1,0,1 (pin levels 1,1,0,0,1,0),
    one sample each from the initial globals, give the counts 0,0,1,1,1,2. *)
Lemma event_count_rising_edges_scenario :
  let es := map (fun '(t, level) => mkEnv t level 0 true 200 EmptyString)
                [(30, 1); (60, 1); (90, 0); (120, 0); (150, 1); (180, 0)] in
  map triggered es = [false; false; true; true; false; true]
  /\ sample_counts es initial = [0; 0; 1; 1; 1; 2].
Proof.
  cbv zeta. split; [reflexivity|].
  rewrite event_count_rising_edges.
  - reflexivity.
  - unfold INT_MIN. simpl. lia.
  - unfold INT_MAX. simpl. lia.
Defined.

(** C1 as stated fails at [INT_MAX]: a rising edge does not add one, the
    32-bit counter wraps to [INT_MIN].  The state is the one [INT_MAX] rounds
    of [edge_run] reach. *)
Lemma event_count_rising_edge_at_INT_MAX :
  let g := {| lastReadTime := 4294966896; lastSendTime := 4294966896;
              eventCount := 2147483647; lastReading := 0;
              currentReading := 0; gasRaw := 0; gasStatus := "MEDIUM" |} in
  let e := mkEnv 858993459000 0 0 false 0 EmptyString in
  (exists es : list env,
      clock_monotone 0 es /\ last_clock 0 es <= clock_ms e
      /\ run es initial = g)
  /\ negb (lastReading g =? 0) = false
  /\ triggered e = true
  /\ sample_counts [e] g = [-2147483648]
  /\ edge_counts (negb (lastReading g =? 0)) (eventCount g) [triggered e]
     = [2147483648].
Proof.
  cbv zeta. split; [|repeat split].
  destruct (counted_reachable INT_MAX) as (es & Hmono & Hlast & Hrun);
    [unfold INT_MAX; lia|].
  exists es. split; [exact Hmono|]. split.
  - rewrite Hlast. vm_compute. discriminate.
  - rewrite Hrun. reflexivity.
Qed.

(** ** [eventCount] never decreases, until it overflows *)

Lemma loop_eventCount (e : env) (g : globals) :
  eventCount (exec (loop e) g) = eventCount (after_sample e g).
Proof. rewrite loop_exec. destruct (publish_due _ _); reflexivity. Qed.

Lemma sample_eventCount_step (e : env) (now : Z) (g : globals) :
  INT_MIN <= eventCount g < INT_MAX ->
  eventCount g <= eventCount (exec (sample e now) g) <= eventCount g + 1.
Proof.
  intros H. rewrite sample_eventCount_edge by exact H.
  pose proof (edge_increment_bounds (negb (lastReading g =? 0)) (triggered e)).
  lia.
Qed.

Lemma loop_eventCount_step (e : env) (g : globals) :
  INT_MIN <= eventCount g < INT_MAX ->
  eventCount g <= eventCount (exec (loop e) g) <= eventCount g + 1.
Proof.
  intros H. rewrite loop_eventCount. unfold after_sample.
  destruct (sample_due _ _); [now apply sample_eventCount_step | lia].
Qed.

Lemma sample_exec_same (e : env) (now : Z) (g g' : globals) :
  SampleState g = SampleState g' ->
  SampleState (exec (sample e now) g) = SampleState (exec (sample e now) g')
  /\ lastReadTime (exec (sample e now) g)
     = lastReadTime (exec (sample e now) g').
Proof.
  unfold SampleState. intros H. injection H as Hc Hl He Hr Hs.
  rewrite !sample_exec. simpl_globals. rewrite Hl, He. split; reflexivity.
Qed.

Lemma run_as_sample_steps (es : list env) :
  forall g g' : globals,
    SampleState g = SampleState g' ->
    lastReadTime g = lastReadTime g' ->
    SampleState (run es g) = SampleState (sample_steps (sampled es g) g')
    /\ lastReadTime (run es g) = lastReadTime (sample_steps (sampled es g) g').
Proof.
  induction es as [|e es IH]; intros g g' Hst Hlr;
    cbn [run sampled]; [split; assumption|].
  rewrite sample_fires_due.
  assert (Hloop : SampleState (exec (loop e) g) = SampleState (after_sample e g)
                  /\ lastReadTime (exec (loop e) g)
                     = lastReadTime (after_sample e g)).
  { rewrite loop_exec. destruct (publish_due _ _); split; reflexivity. }
  destruct Hloop as [Hls Hll].
  unfold after_sample in Hls, Hll.
  destruct (sample_due (millis e) g); cbn [app sample_steps].
  - destruct (sample_exec_same e (millis e) g g' Hst) as [Hs1 Hs2].
    apply IH; congruence.
  - apply IH; congruence.
Qed.

Lemma sample_steps_eventCount (es : list env) :
  forall g : globals,
    INT_MIN <= eventCount g ->
    eventCount g
      + rising_edges (negb (lastReading g =? 0)) (map triggered es) <= INT_MAX ->
    eventCount (sample_steps es g)
    = eventCount g
      + rising_edges (negb (lastReading g =? 0)) (map triggered es).
Proof.
  induction es as [|e es IH]; intros g Hlo Hhi;
    cbn [sample_steps map rising_edges] in *; [lia|].
  pose proof (edge_increment_bounds (negb (lastReading g =? 0)) (triggered e))
    as Hinc.
  pose proof (rising_edges_nonneg (map triggered es) (triggered e)) as Hrest.
  assert (Hstep : eventCount (exec (sample e (millis e)) g)
                  = eventCount g
                    + edge_increment (negb (lastReading g =? 0)) (triggered e)).
  { destruct (Z.eq_dec
                (edge_increment (negb (lastReading g =? 0)) (triggered e)) 0)
      as [H0|H1].
    - rewrite H0, Z.add_0_r. now apply sample_eventCount_no_edge.
    - apply sample_eventCount_edge. lia. }
  rewrite IH; rewrite ?sample_lastReading, ?Hstep; lia.
Qed.

Lemma sampled_app (es1 es2 : list env) :
  forall g : globals,
    sampled (es1 ++ es2) g = sampled es1 g ++ sampled es2 (run es1 g).
Proof.
  induction es1 as [|e es1 IH]; intros g; cbn [app sampled run];
    [reflexivity|].
  now rewrite IH, app_assoc.
Qed.

Lemma rising_edges_app_le (ts1 ts2 : list bool) :
  forall prev : bool, rising_edges prev ts1 <= rising_edges prev (ts1 ++ ts2).
Proof.
  induction ts1 as [|t ts1 IH]; intros prev; cbn [app rising_edges].
  - apply rising_edges_nonneg.
  - specialize (IH t). lia.
Qed.

(** From the initial globals the count is the number of rising edges
    sampled so far, as long as there are at most [INT_MAX] of them. *)
Lemma run_counts_edges_from_initial (es : list env) :
  rising_edges false (map triggered (sampled es initial)) <= INT_MAX ->
  eventCount (run es initial)
  = rising_edges false (map triggered (sampled es initial)).
Proof.
  intros Hhi.
  destruct (run_as_sample_steps es initial initial eq_refl eq_refl) as [Hst _].
  assert (He : eventCount (run es initial)
               = eventCount (sample_steps (sampled es initial) initial)).
  { unfold SampleState in Hst. now injection Hst. }
  rewrite He.
  pose proof (sample_steps_eventCount (sampled es initial) initial) as H.
  cbn [eventCount lastReading initial Z.eqb negb] in H.
  rewrite H; [lia | unfold INT_MIN; lia | lia].
Qed.

(** C5, amended.  [eventCount] is non-negative and never decreases until
    the 32-bit counter overflows.  The send branch never changes it; from a
    state whose [eventCount] is below [INT_MAX], a sample step and a whole
    iteration leave it unchanged or add one to it; and along every run from
    the initial globals in which at most [INT_MAX] rising edges are sampled,
    however many iterations the run has, [eventCount] is the number of rising
    edges sampled so far, so it is non-negative in every state of the run and
    no later state of the run has a smaller one. *)
Theorem event_count_monotone_below_INT_MAX :
  (forall (g : globals) (e : env) (now : Z),
      eventCount (exec (publish e now) g) = eventCount g
      /\ (INT_MIN <= eventCount g < INT_MAX ->
          eventCount g <= eventCount (exec (sample e now) g) <= eventCount g + 1
          /\ eventCount g <= eventCount (exec (loop e) g) <= eventCount g + 1))
  /\ (forall es1 es2 : list env,
        rising_edges false (map triggered (sampled (es1 ++ es2) initial))
        <= INT_MAX ->
        0 <= eventCount (run es1 initial)
          <= eventCount (run (es1 ++ es2) initial)
        /\ eventCount (run (es1 ++ es2) initial)
           = rising_edges false
               (map triggered (sampled (es1 ++ es2) initial))).
Proof.
  split.
  - intros g e now. split; [now rewrite publish_exec|].
    intros H. split;
      [now apply sample_eventCount_step | now apply loop_eventCount_step].
  - intros es1 es2 Hhi.
    pose proof (run_counts_edges_from_initial (es1 ++ es2) Hhi) as Hall.
    assert (Hle : rising_edges false (map triggered (sampled es1 initial))
                  <= rising_edges false
                       (map triggered (sampled (es1 ++ es2) initial))).
    { rewrite sampled_app, map_app. apply rising_edges_app_le. }
    assert (H1 : eventCount (run es1 initial)
                 = rising_edges false (map triggered (sampled es1 initial))).
    { apply run_counts_edges_from_initial. lia. }
    pose proof (rising_edges_nonneg (map triggered (sampled es1 initial)) false).
    split; [lia | exact Hall].
Qed.

(** The three iterations of [scenario_run] (triggered, released,
    triggered), then two iterations in which nothing is due. *)
Lemma event_count_monotone_witness :
  let idle := [mkEnv 91 0 0 true 200 "ok"; mkEnv 92 1 0 true 200 "ok"] in
  let e := mkEnv 200 1 0 true 200 "ok" in
  0 <= eventCount (run scenario_run initial)
    <= eventCount (run (scenario_run ++ idle) initial)
  /\ eventCount (run (scenario_run ++ idle) initial) = 2
  /\ eventCount (run scenario_run initial)
     <= eventCount (exec (loop e) (run scenario_run initial))
     <= eventCount (run scenario_run initial) + 1.
Proof.
  cbv zeta.
  destruct event_count_monotone_below_INT_MAX as [Hstep Hrun].
  assert (Hedges :
            rising_edges false
              (map triggered
                 (sampled
                    (scenario_run
                       ++ [mkEnv 91 0 0 true 200 "ok";
                           mkEnv 92 1 0 true 200 "ok"]) initial)) = 2)
    by reflexivity.
  destruct (Hrun scenario_run
                 [mkEnv 91 0 0 true 200 "ok"; mkEnv 92 1 0 true 200 "ok"])
    as [Hmono Hcount].
  - rewrite Hedges. unfold INT_MAX. lia.
  - split; [exact Hmono|]. split; [rewrite Hcount; exact Hedges|].
    apply (Hstep (run scenario_run initial) (mkEnv 200 1 0 true 200 "ok") 200).
    assert (Hg : eventCount (run scenario_run initial) = 2) by reflexivity.
    rewrite Hg. unfold INT_MIN, INT_MAX. lia.
Defined.

(** C5 as stated fails at [INT_MAX]: the next rising edge takes
    [eventCount] to [INT_MIN], so the iteration decreases it and leaves it
    negative. *)
Lemma event_count_decreases_at_INT_MAX :
  let g := {| lastReadTime := 4294966896; lastSendTime := 4294966896;
              eventCount := 2147483647; lastReading := 0;
              currentReading := 0; gasRaw := 0; gasStatus := "MEDIUM" |} in
  let e := mkEnv 858993459000 0 0 false 0 EmptyString in
  (exists es : list env,
      clock_monotone 0 es /\ last_clock 0 es <= clock_ms e
      /\ run es initial = g)
  /\ eventCount (exec (loop e) g) = -2147483648
  /\ eventCount (exec (loop e) g) < eventCount g
  /\ eventCount (run [e] g) < 0.
Proof.
  cbv zeta. split; [|repeat split].
  destruct (counted_reachable INT_MAX) as (es & Hmono & Hlast & Hrun);
    [unfold INT_MAX; lia|].
  exists es. split; [exact Hmono|]. split.
  - rewrite Hlast. vm_compute. discriminate.
  - rewrite Hrun. reflexivity.
Qed.

(** ** The timers *)

Lemma loop_lastReadTime (e : env) (g : globals) :
  lastReadTime (exec (loop e) g)
  = if sample_due (millis e) g then millis e else lastReadTime g.
Proof.
  rewrite loop_exec. unfold after_sample.
  destruct (publish_due _ _); destruct (sample_due _ _);
    rewrite ?sample_exec; reflexivity.
Qed.

Lemma loop_lastSendTime (e : env) (g : globals) :
  lastSendTime (exec (loop e) g)
  = if publish_due (millis e) g then millis e else lastSendTime g.
Proof.
  rewrite loop_exec, publish_due_after_sample.
  destruct (publish_due _ _); [reflexivity | apply after_sample_lastSendTime].
Qed.

Lemma clock_monotone_weaken (es : list env) (t0 t1 : Z) :
  t0 <= t1 -> clock_monotone t1 es -> clock_monotone t0 es.
Proof.
  destruct es as [|e es]; intros Hle H; [exact I|].
  destruct H as [H1 H2]. split; [lia | exact H2].
Qed.

Lemma millis_le_clock (e : env) : 0 <= clock_ms e -> millis e <= clock_ms e.
Proof. apply wrap_ulong_le. Qed.

Lemma run_timers_bounded (es : list env) :
  forall (g : globals) (t0 : Z),
    0 <= t0 ->
    lastReadTime g <= t0 ->
    lastSendTime g <= t0 ->
    clock_monotone t0 es ->
    lastReadTime (run es g) <= last_clock t0 es
    /\ lastSendTime (run es g) <= last_clock t0 es.
Proof.
  induction es as [|e es IH]; intros g t0 H0 Hr Hs Hmono;
    cbn [run last_clock] in *; [lia|].
  destruct Hmono as [Hle Hmono].
  pose proof (millis_le_clock e) as Hm.
  apply IH; try assumption; try lia.
  - rewrite loop_lastReadTime. destruct (sample_due _ _); lia.
  - rewrite loop_lastSendTime. destruct (publish_due _ _); lia.
Qed.

(** C7, amended.  In every state a run with a monotone clock reaches,
    [lastReadTime] and [lastSendTime] are at most the time elapsed since
    boot; and while the millisecond counter has not wrapped, that is, less
    than [2^32] ms after boot, they are at most the clock reading of the
    iteration just executed. *)
Theorem timers_before_wrap (es : list env) :
  clock_monotone 0 es ->
  (lastReadTime (run es initial) <= last_clock 0 es
   /\ lastSendTime (run es initial) <= last_clock 0 es)
  /\ (last_clock 0 es < 2 ^ 32 ->
      let now := wrap_ulong (last_clock 0 es) in
      lastReadTime (run es initial) <= now
      /\ lastSendTime (run es initial) <= now).
Proof.
  intros Hmono.
  pose proof (clock_monotone_last es 0 Hmono) as H0.
  assert (Ht : lastReadTime (run es initial) <= last_clock 0 es
               /\ lastSendTime (run es initial) <= last_clock 0 es).
  { apply run_timers_bounded; try assumption; cbn; lia. }
  split; [exact Ht|].
  intros Hlast. cbv zeta.
  rewrite wrap_ulong_small by (unfold ULONG_MOD; lia). exact Ht.
Qed.

(** Iterations at 10, 30, 45 and 250 ms. *)
Lemma timers_before_wrap_witness :
  let es := map (fun t => mkEnv t 1 0 true 200 EmptyString)
                [10; 30; 45; 250] in
  TimerState (run es initial) = (250, 250)
  /\ lastReadTime (run es initial) <= wrap_ulong 250
  /\ lastSendTime (run es initial) <= wrap_ulong 250.
Proof.
  cbv zeta. split; [reflexivity|].
  apply (timers_before_wrap
           (map (fun t => mkEnv t 1 0 true 200 EmptyString)
                [10; 30; 45; 250])).
  - simpl. lia.
  - simpl. lia.
Defined.

(** C7 as stated fails once the counter has wrapped: both timers can be
    ahead of the clock reading.  The run samples and publishes 96 ms before
    the wrap (the state is the one 10737418 rounds of [edge_run] reach),
    samples again 6 ms before the wrap, and 4 ms after the wrap nothing is
    due: the counter reads 4 and the timers still hold the readings taken
    before the wrap. *)
Lemma timers_after_wrap :
  let g := {| lastReadTime := 4294967200; lastSendTime := 4294967200;
              eventCount := 10737418; lastReading := 0;
              currentReading := 0; gasRaw := 0; gasStatus := "MEDIUM" |} in
  let e1 := mkEnv 4294967290 1 0 true 200 EmptyString in
  let e2 := mkEnv 4294967300 1 0 true 200 EmptyString in
  (exists es : list env,
      clock_monotone 0 es /\ last_clock 0 es <= clock_ms e1
      /\ run es initial = g)
  /\ clock_ms e1 <= clock_ms e2
  /\ millis e2 = 4
  /\ lastReadTime (run [e1; e2] g) = 4294967290
  /\ lastSendTime (run [e1; e2] g) = 4294967200
  /\ ~ lastReadTime (run [e1; e2] g) <= millis e2
  /\ ~ lastSendTime (run [e1; e2] g) <= millis e2.
Proof.
  cbv zeta. split.
  - destruct (counted_reachable 10737418) as (es & Hmono & Hlast & Hrun);
      [unfold INT_MAX; lia|].
    exists es. split; [exact Hmono|]. split.
    + rewrite Hlast. cbn. lia.
    + rewrite Hrun. reflexivity.
  - split; [cbn; lia|]. split; [reflexivity|].
    split; [reflexivity|]. split; [reflexivity|].
    split; vm_compute; intros H; now apply H.
Qed.

(** The same with a first iteration that runs only 1 ms before the wrap
    ([setup] waits for the link without a timeout) and a second one 2 ms
    later. *)
Lemma late_start_timers_ahead :
  let es := [ mkEnv 4294967295 1 0 true 200 EmptyString;
              mkEnv 4294967297 1 0 true 200 EmptyString ] in
  clock_monotone 0 es
  /\ wrap_ulong (last_clock 0 es) = 1
  /\ TimerState (run es initial) = (4294967295, 4294967295).
Proof.
  cbv zeta. split; [cbn; lia|]. split; reflexivity.
Qed.

(** ** Spacing of the two actions *)

Lemma spaced_cons (d a b : Z) (ts : list Z) :
  d <= b - a -> spaced d (b :: ts) -> spaced d (a :: b :: ts).
Proof. intros H1 H2. split; assumption. Qed.

Lemma due_elapsed (d now t0 last : Z) :
  last = wrap_ulong t0 ->
  t0 <= now ->
  (d <=? ulong_sub (wrap_ulong now) last) = true ->
  d <= now - t0.
Proof.
  intros Hl Hle Hdue. apply Z.leb_le in Hdue.
  rewrite Hl, ulong_sub_wrap in Hdue.
  pose proof (wrap_ulong_le (now - t0)). lia.
Qed.

Lemma sample_times_after (es : list env) :
  forall (g : globals) (t0 : Z),
    lastReadTime g = wrap_ulong t0 ->
    clock_monotone t0 es ->
    spaced READ_INTERVAL (t0 :: sample_times es g).
Proof.
  induction es as [|e es IH]; intros g t0 Hl Hmono; [exact I|].
  destruct Hmono as [Hle Hmono]. cbn [sample_times].
  rewrite sample_fires_due.
  destruct (sample_due (millis e) g) eqn:Hdue; cbn [app].
  - apply spaced_cons.
    + exact (due_elapsed _ _ _ _ Hl Hle Hdue).
    + apply IH; [|exact Hmono].
      rewrite loop_lastReadTime, Hdue. reflexivity.
  - apply IH.
    + rewrite loop_lastReadTime, Hdue. exact Hl.
    + now apply (clock_monotone_weaken es t0 (clock_ms e)).
Qed.

Lemma publish_times_after (es : list env) :
  forall (g : globals) (t0 : Z),
    lastSendTime g = wrap_ulong t0 ->
    clock_monotone t0 es ->
    spaced SEND_INTERVAL (t0 :: publish_times es g).
Proof.
  induction es as [|e es IH]; intros g t0 Hl Hmono; [exact I|].
  destruct Hmono as [Hle Hmono]. cbn [publish_times].
  rewrite publish_fires_due.
  destruct (publish_due (millis e) g) eqn:Hdue; cbn [app].
  - apply spaced_cons.
    + exact (due_elapsed _ _ _ _ Hl Hle Hdue).
    + apply IH; [|exact Hmono].
      rewrite loop_lastSendTime, Hdue. reflexivity.
  - apply IH.
    + rewrite loop_lastSendTime, Hdue. exact Hl.
    + now apply (clock_monotone_weaken es t0 (clock_ms e)).
Qed.

(** C6. In every run whose clock does not go back, from any globals, two
    consecutive iterations that sample are at least [READ_INTERVAL] = 30 ms
    apart and two consecutive iterations that publish are at least
    [SEND_INTERVAL] = 200 ms apart, however many iterations lie between
    them. *)
Theorem firings_spaced (es : list env) :
  forall (g : globals) (t0 : Z),
    clock_monotone t0 es ->
    spaced READ_INTERVAL (sample_times es g)
    /\ spaced SEND_INTERVAL (publish_times es g).
Proof.
  induction es as [|e es IH]; intros g t0 Hmono; [split; exact I|].
  destruct Hmono as [Hle Hmono].
  destruct (IH (exec (loop e) g) _ Hmono) as [IHs IHp].
  cbn [sample_times publish_times].
  rewrite sample_fires_due, publish_fires_due. split.
  - destruct (sample_due (millis e) g) eqn:Hdue; cbn [app]; [|exact IHs].
    apply sample_times_after; [|exact Hmono].
    rewrite loop_lastReadTime, Hdue. reflexivity.
  - destruct (publish_due (millis e) g) eqn:Hdue; cbn [app]; [|exact IHp].
    apply publish_times_after; [|exact Hmono].
    rewrite loop_lastSendTime, Hdue. reflexivity.
Qed.

(** Iterations every 10 ms or so over the first 460 ms. *)
Lemma firings_spaced_witness :
  let es := map (fun t => mkEnv t 1 0 true 200 EmptyString)
                [5; 29; 30; 45; 59; 61; 90; 95; 200; 210; 230; 399; 401; 460] in
  sample_times es initial = [30; 61; 95; 200; 230; 399; 460]
  /\ publish_times es initial = [200; 401]
  /\ spaced 30 (sample_times es initial)
  /\ spaced 200 (publish_times es initial).
Proof.
  cbv zeta. split; [reflexivity|]. split; [reflexivity|].
  apply (firings_spaced
           (map (fun t => mkEnv t 1 0 true 200 EmptyString)
                [5; 29; 30; 45; 59; 61; 90; 95; 200; 210; 230; 399; 401; 460])
           initial 0).
  simpl. lia.
Defined.

(** * Further properties of the sketch *)

(** ** Idle iterations *)

(** X1. An iteration that finds neither timer due does nothing: it reads
    no pin, prints nothing, calls no HTTP function and changes no global. *)
Theorem idle_iteration (e : env) (g : globals) :
  ulong_sub (millis e) (lastReadTime g) < READ_INTERVAL ->
  ulong_sub (millis e) (lastSendTime g) < SEND_INTERVAL ->
  exec (loop e) g = g /\ trace (loop e) g = [].
Proof.
  intros Hs Hp.
  assert (Hsd : sample_due (millis e) g = false).
  { unfold sample_due. apply Z.leb_gt. exact Hs. }
  assert (Hpd : publish_due (millis e) g = false).
  { unfold publish_due. apply Z.leb_gt. exact Hp. }
  assert (Ha : after_sample e g = g).
  { unfold after_sample. now rewrite Hsd. }
  rewrite loop_exec, loop_trace, Ha, Hsd, Hpd. split; reflexivity.
Qed.

(** An iteration 10 ms after a sample and a send at 1000 ms. *)
Lemma idle_iteration_witness :
  let g := set_lastSendTime 1000 (set_lastReadTime 1000 initial) in
  let e := mkEnv 1010 0 4000 true 200 "ok" in
  exec (loop e) g = g /\ trace (loop e) g = [].
Proof.
  cbv zeta.
  apply (idle_iteration (mkEnv 1010 0 4000 true 200 "ok")
           (set_lastSendTime 1000 (set_lastReadTime 1000 initial))).
  - vm_compute. reflexivity.
  - vm_compute. reflexivity.
Defined.

(** ** Consistency of the sampled fields *)

Lemma sample_consistent_initial : sample_consistent initial.
Proof. repeat split. now left. Qed.

Lemma sample_consistent_loop (e : env) (g : globals) :
  sample_consistent g -> sample_consistent (exec (loop e) g).
Proof.
  intros Hg. rewrite loop_exec.
  assert (Ha : sample_consistent (after_sample e g)).
  { unfold after_sample. destruct (sample_due _ _); [|exact Hg].
    rewrite sample_exec. unfold sample_consistent. simpl_globals.
    repeat split. apply lnot_bit. }
  destruct (publish_due _ _); exact Ha.
Qed.

Lemma sample_consistent_run (es : list env) :
  forall g, sample_consistent g -> sample_consistent (run es g).
Proof.
  induction es as [|e es IH]; intros g Hg; cbn [run]; [exact Hg|].
  apply IH. now apply sample_consistent_loop.
Qed.

(** X2. In every state a run reaches from the initial globals,
    [currentReading] is 0 or 1, [lastReading] equals [currentReading], and
    [gasStatus] is the status the thresholds give for the stored [gasRaw]:
    RISK from 4000, WARNING from 3500, MEDIUM below. *)
Theorem reachable_sample_consistent (es : list env) :
  let g := run es initial in
  (currentReading g = 0 \/ currentReading g = 1)
  /\ lastReading g = currentReading g
  /\ gasStatus g
     = if 4000 <=? gasRaw g then "RISK"
       else if 3500 <=? gasRaw g then "WARNING" else "MEDIUM".
Proof.
  exact (sample_consistent_run es initial sample_consistent_initial).
Qed.

(** ** The network never feeds back into the globals *)

Lemma loop_exec_same_sensors (e1 e2 : env) (g : globals) :
  same_sensors e1 e2 -> exec (loop e1) g = exec (loop e2) g.
Proof.
  intros (Hc & Hv & Hg).
  assert (Hm : millis e1 = millis e2) by (unfold millis; now rewrite Hc).
  assert (Ha : after_sample e1 g = after_sample e2 g).
  { unfold after_sample. rewrite Hm. destruct (sample_due _ _); [|reflexivity].
    rewrite !sample_exec, Hv, Hg. reflexivity. }
  rewrite !loop_exec, Ha, Hm. reflexivity.
Qed.

(** X3. The globals after a run depend on the clock and on the two sensor
    inputs only: whether the link is up, what status code a POST returns and
    what the server answers change nothing in them, so a failed send is
    neither noticed nor retried. *)
Theorem run_ignores_network (es1 es2 : list env) :
  Forall2 same_sensors es1 es2 ->
  forall g : globals, run es1 g = run es2 g.
Proof.
  induction 1 as [|e1 e2 es1 es2 He Hes IH]; intros g; cbn [run];
    [reflexivity|].
  rewrite (loop_exec_same_sensors e1 e2 g He). apply IH.
Qed.

(** Two iterations with the link up and status 200, against the same two
    with the link down, then up with a failed POST (status -1). *)
Lemma run_ignores_network_witness :
  run [ mkEnv 200 0 3600 true 200 "ok"; mkEnv 400 1 4000 true 200 "ok" ]
      initial
  = run [ mkEnv 200 0 3600 false 0 EmptyString;
          mkEnv 400 1 4000 true (-1) EmptyString ]
        initial.
Proof.
  apply run_ignores_network.
  repeat constructor.
Defined.

(** ** What a connected send logs *)



(** ** Requests per iteration *)

Lemma loop_requests (e : env) (g : globals) :
  requests_of (trace (loop e) g)
  = if publish_due (millis e) g && wifi_connected e
    then [ {| req_method := "POST";
              req_url := BACKEND_URL;
              req_headers :=
                [ ("Content-Type", "application/json");
                  ("Authorization", ("Bearer " ++ API_KEY)%string) ];
              req_body := build_payload (after_sample e g) |} ]
    else [].
Proof.
  rewrite loop_trace, publish_due_after_sample.
  assert (Hskip : forall t,
             requests_of
               ((if sample_due (millis e) g
                 then [DigitalRead VIB_PIN; AnalogRead GAS_PIN] else []) ++ t)
             = requests_of t).
  { intros t. destruct (sample_due _ _); reflexivity. }
  rewrite Hskip.
  destruct (publish_due (millis e) g); cbn [andb]; [|reflexivity].
  destruct (wifi_connected e) eqn:Hw.
  - rewrite sendToBackend_requests by assumption.
    now rewrite build_payload_set_lastSendTime.
  - rewrite sendToBackend_offline by assumption. reflexivity.
Qed.

(** X5. An iteration sends one request when the send branch is due and
    the link is up, and none otherwise: never more than one, and none when
    only the sensor-read branch runs. *)
Theorem one_request_per_iteration (e : env) (g : globals) :
  List.length (requests_of (trace (loop e) g))
  = if publish_fires e g && wifi_connected e then 1%nat else 0%nat.
Proof.
  rewrite loop_requests, publish_fires_due.
  destruct (publish_due (millis e) g && wifi_connected e); reflexivity.
Qed.

(** ** The HTTP client over a whole run *)

Lemma requests_from_closed (t : list event) :
  http_bracketed false t = true ->
  forall url hs, requests_from url hs t = requests_of t.
Proof.
  unfold requests_of.
  induction t as [|ev t IH]; intros Hb url hs; [reflexivity|].
  destruct ev; cbn [http_bracketed andb negb] in Hb; try discriminate;
    cbn [requests_from]; try reflexivity;
    rewrite (IH Hb url hs); symmetry; apply (IH Hb).
Qed.

Lemma http_bracketed_app (t1 t2 : list event) :
  http_bracketed false t2 = true ->
  forall opened,
    http_bracketed opened t1 = true ->
    http_bracketed opened (t1 ++ t2) = true.
Proof.
  intros H2. induction t1 as [|ev t1 IH]; intros opened H1.
  - destruct opened; [discriminate H1 | exact H2].
  - destruct ev; cbn [http_bracketed app] in *;
      try (apply andb_prop in H1; destruct H1 as [Ho H1]; rewrite Ho;
           cbn [andb]);
      now apply IH.
Qed.

Lemma requests_from_app (t1 t2 : list event) :
  http_bracketed false t2 = true ->
  forall opened url hs,
    http_bracketed opened t1 = true ->
    requests_from url hs (t1 ++ t2) = requests_from url hs t1 ++ requests_of t2.
Proof.
  intros H2. induction t1 as [|ev t1 IH]; intros opened url hs H1.
  - cbn [app requests_from]. now apply requests_from_closed.
  - destruct ev; cbn [http_bracketed app requests_from] in *;
      try (apply andb_prop in H1; destruct H1 as [Ho H1]);
      rewrite (IH _ _ _ H1); reflexivity.
Qed.

Lemma loop_trace_bracketed (e : env) (g : globals) :
  http_bracketed false (trace (loop e) g) = true.
Proof.
  rewrite loop_trace.
  assert (Hskip : forall t,
             http_bracketed false
               ((if sample_due (millis e) g
                 then [DigitalRead VIB_PIN; AnalogRead GAS_PIN] else []) ++ t)
             = http_bracketed false t).
  { intros t. destruct (sample_due _ _); reflexivity. }
  rewrite Hskip. destruct (publish_due _ _); [|reflexivity].
  destruct (wifi_connected e) eqn:Hw.
  - rewrite sendToBackend_online by assumption.
    destruct (0 <? http_code e); reflexivity.
  - rewrite sendToBackend_offline by assumption. reflexivity.
Qed.

Lemma run_trace_bracketed (es : list env) :
  forall g, http_bracketed false (run_trace es g) = true.
Proof.
  induction es as [|e es IH]; intros g; cbn [run_trace]; [reflexivity|].
  apply http_bracketed_app; [apply IH | apply loop_trace_bracketed].
Qed.

Lemma run_trace_requests (e : env) (es : list env) (g : globals) :
  requests_of (run_trace (e :: es) g)
  = requests_of (trace (loop e) g)
      ++ requests_of (run_trace es (exec (loop e) g)).
Proof.
  cbn [run_trace]. unfold requests_of at 1.
  apply (requests_from_app _ _ (run_trace_bracketed es _) false).
  apply loop_trace_bracketed.
Qed.

(** X6. Over a whole run, from any globals, the HTTP client is used in
    matched pairs: [begin] is only called on a closed client, headers, POST
    and [getString] only between a [begin] and its [end], and the client is
    closed when each iteration ends; and the requests the run sends are the
    requests of its iterations, in order. *)
Theorem http_client_discipline (es1 es2 : list env) (g : globals) :
  http_bracketed false (run_trace es1 g) = true
  /\ run_trace (es1 ++ es2) g = run_trace es1 g ++ run_trace es2 (run es1 g)
  /\ requests_of (run_trace (es1 ++ es2) g)
     = requests_of (run_trace es1 g)
         ++ requests_of (run_trace es2 (run es1 g)).
Proof.
  split; [apply run_trace_bracketed|].
  assert (Happ : run_trace (es1 ++ es2) g
                 = run_trace es1 g ++ run_trace es2 (run es1 g)).
  { revert g. induction es1 as [|e es1 IH]; intros g; cbn [run_trace run app];
      [reflexivity|].
    now rewrite IH, app_assoc. }
  split; [exact Happ|].
  rewrite Happ. unfold requests_of at 1.
  apply (requests_from_app _ _ (run_trace_bracketed es2 _) false).
  apply run_trace_bracketed.
Qed.

(** ** What the backend receives *)

Lemma sample_consistent_after_sample (e : env) (g : globals) :
  sample_consistent g -> sample_consistent (after_sample e g).
Proof.
  intros Hg. unfold after_sample. destruct (sample_due _ _); [|exact Hg].
  rewrite sample_exec. unfold sample_consistent. simpl_globals.
  repeat split. apply lnot_bit.
Qed.

Lemma run_requests_consistent (es : list env) :
  forall g : globals,
    sample_consistent g ->
    forall r : request,
      In r (requests_of (run_trace es g)) ->
      req_method r = "POST"
      /\ req_url r = BACKEND_URL
      /\ req_headers r
         = [ ("Content-Type", "application/json");
             ("Authorization", ("Bearer " ++ API_KEY)%string) ]
      /\ exists v count gas : Z,
          (v = 0 \/ v = 1)
          /\ req_body r
             = render_object
                 [ ("device_id", JString DEVICE_ID);
                   ("vibration", JInt v);
                   ("event_count", JInt count);
                   ("gas_raw", JInt gas);
                   ("gas_status", JString (classify gas)) ].
Proof.
  induction es as [|e es IH]; intros g Hg r Hr; [destruct Hr|].
  rewrite run_trace_requests in Hr. apply in_app_or in Hr.
  destruct Hr as [Hr|Hr].
  - rewrite loop_requests in Hr.
    destruct (publish_due (millis e) g && wifi_connected e); [|destruct Hr].
    destruct Hr as [Hr|[]]. subst r. cbn [req_method req_url req_headers req_body].
    repeat split.
    destruct (sample_consistent_after_sample e g Hg) as (Hbit & _ & Hst).
    exists (currentReading (after_sample e g)),
           (eventCount (after_sample e g)),
           (gasRaw (after_sample e g)).
    split; [exact Hbit|].
    rewrite build_payload_render. unfold publish_record. now rewrite Hst.
  - apply (IH (exec (loop e) g)); [|exact Hr].
    now apply sample_consistent_loop.
Qed.

(** X7. Every request a run sends from the initial globals is a POST to
    the backend URL with the two headers, and its body is self-consistent:
    vibration is 0 or 1 and gas_status is the tier of the gas_raw value in
    the same body (RISK from 4000, WARNING from 3500, MEDIUM below). *)
Theorem requests_self_consistent (es : list env) (r : request) :
  In r (requests_of (run_trace es initial)) ->
  req_method r = "POST"
  /\ req_url r = BACKEND_URL
  /\ req_headers r
     = [ ("Content-Type", "application/json");
         ("Authorization", ("Bearer " ++ API_KEY)%string) ]
  /\ exists v count gas : Z,
      (v = 0 \/ v = 1)
      /\ req_body r
         = render_object
             [ ("device_id", JString DEVICE_ID);
               ("vibration", JInt v);
               ("event_count", JInt count);
               ("gas_raw", JInt gas);
               ("gas_status",
                JString (if 4000 <=? gas then "RISK"
                         else if 3500 <=? gas then "WARNING"
                         else "MEDIUM")) ].
Proof.
  intros Hr.
  exact (run_requests_consistent es initial sample_consistent_initial r Hr).
Qed.

(** One iteration at 200 ms that finds the input triggered and the gas at
    4000. *)
Lemma requests_self_consistent_witness :
  let es := [mkEnv 200 0 4000 true 200 "ok"] in
  let r := {| req_method := "POST";
              req_url := BACKEND_URL;
              req_headers :=
                [ ("Content-Type", "application/json");
                  ("Authorization", ("Bearer " ++ API_KEY)%string) ];
              req_body := build_payload (run es initial) |} in
  In r (requests_of (run_trace es initial))
  /\ req_url r = BACKEND_URL
  /\ gasStatus (run es initial) = "RISK".
Proof.
  cbv zeta.
  assert (Hin : In {| req_method := "POST";
                      req_url := BACKEND_URL;
                      req_headers :=
                        [ ("Content-Type", "application/json");
                          ("Authorization", ("Bearer " ++ API_KEY)%string) ];
                      req_body :=
                        build_payload
                          (run [mkEnv 200 0 4000 true 200 "ok"] initial) |}
                   (requests_of
                      (run_trace [mkEnv 200 0 4000 true 200 "ok"] initial))).
  { left. reflexivity. }
  split; [exact Hin|]. split; [|reflexivity].
  apply (requests_self_consistent _ _ Hin).
Defined.

(** ** How often the two branches can run *)

Lemma sample_count_anchored (es : list env) :
  forall (g : globals) (t0 : Z),
    lastReadTime g = wrap_ulong t0 ->
    clock_monotone t0 es ->
    READ_INTERVAL * Z.of_nat (List.length (sample_times es g))
    <= last_clock t0 es - t0.
Proof.
  induction es as [|e es IH]; intros g t0 Hl Hmono;
    cbn [sample_times last_clock]; [cbn; lia|].
  destruct Hmono as [Hle Hmono].
  rewrite sample_fires_due.
  destruct (sample_due (millis e) g) eqn:Hdue; cbn [app].
  - pose proof (due_elapsed _ _ _ _ Hl Hle Hdue) as Hgap.
    assert (Hl' : lastReadTime (exec (loop e) g) = wrap_ulong (clock_ms e)).
    { rewrite loop_lastReadTime, Hdue. reflexivity. }
    specialize (IH _ _ Hl' Hmono).
    cbn [List.length]. rewrite Nat2Z.inj_succ. lia.
  - assert (Hl' : lastReadTime (exec (loop e) g) = wrap_ulong t0).
    { rewrite loop_lastReadTime, Hdue. exact Hl. }
    pose proof (clock_monotone_weaken es t0 (clock_ms e) Hle Hmono) as Hm0.
    pose proof (IH _ _ Hl' Hm0) as H.
    destruct es as [|e' es'].
    + cbn in *. lia.
    + cbn [last_clock] in *. exact H.
Qed.

Lemma publish_count_anchored (es : list env) :
  forall (g : globals) (t0 : Z),
    lastSendTime g = wrap_ulong t0 ->
    clock_monotone t0 es ->
    SEND_INTERVAL * Z.of_nat (List.length (publish_times es g))
    <= last_clock t0 es - t0.
Proof.
  induction es as [|e es IH]; intros g t0 Hl Hmono;
    cbn [publish_times last_clock]; [cbn; lia|].
  destruct Hmono as [Hle Hmono].
  rewrite publish_fires_due.
  destruct (publish_due (millis e) g) eqn:Hdue; cbn [app].
  - pose proof (due_elapsed _ _ _ _ Hl Hle Hdue) as Hgap.
    assert (Hl' : lastSendTime (exec (loop e) g) = wrap_ulong (clock_ms e)).
    { rewrite loop_lastSendTime, Hdue. reflexivity. }
    specialize (IH _ _ Hl' Hmono).
    cbn [List.length]. rewrite Nat2Z.inj_succ. lia.
  - assert (Hl' : lastSendTime (exec (loop e) g) = wrap_ulong t0).
    { rewrite loop_lastSendTime, Hdue. exact Hl. }
    pose proof (clock_monotone_weaken es t0 (clock_ms e) Hle Hmono) as Hm0.
    pose proof (IH _ _ Hl' Hm0) as H.
    destruct es as [|e' es'].
    + cbn in *. lia.
    + cbn [last_clock] in *. exact H.
Qed.

Lemma run_requests_le_publishes (es : list env) :
  forall g : globals,
    (List.length (requests_of (run_trace es g))
     <= List.length (publish_times es g))%nat.
Proof.
  induction es as [|e es IH]; intros g; [apply Nat.le_refl|].
  rewrite run_trace_requests. cbn [publish_times].
  rewrite !length_app, loop_requests, publish_fires_due.
  specialize (IH (exec (loop e) g)).
  destruct (publish_due (millis e) g); cbn [andb];
    [destruct (wifi_connected e)|]; cbn [List.length]; lia.
Qed.

(** X8. In a run whose clock does not go back, from any globals, the
    number of samples is at most one more than the elapsed time divided by
    [READ_INTERVAL], and the number of send attempts, hence of requests, at
    most one more than the elapsed time divided by [SEND_INTERVAL]: a long
    gap between iterations is never made up for by extra samples or
    requests. *)
Theorem firing_rate_bound (es : list env) :
  forall (g : globals) (t0 : Z),
    clock_monotone t0 es ->
    READ_INTERVAL * (Z.of_nat (List.length (sample_times es g)) - 1)
    <= last_clock t0 es - t0
    /\ SEND_INTERVAL * (Z.of_nat (List.length (publish_times es g)) - 1)
       <= last_clock t0 es - t0
    /\ SEND_INTERVAL
         * (Z.of_nat (List.length (requests_of (run_trace es g))) - 1)
       <= last_clock t0 es - t0.
Proof.
  assert (Hboth : forall (es : list env) (g : globals) (t0 : Z),
             clock_monotone t0 es ->
             READ_INTERVAL * (Z.of_nat (List.length (sample_times es g)) - 1)
             <= last_clock t0 es - t0
             /\ SEND_INTERVAL
                  * (Z.of_nat (List.length (publish_times es g)) - 1)
                <= last_clock t0 es - t0).
  { clear es. induction es as [|e es IH]; intros g t0 Hmono.
    - cbn. unfold READ_INTERVAL, SEND_INTERVAL. lia.
    - destruct Hmono as [Hle Hmono].
      destruct (IH (exec (loop e) g) _ Hmono) as [IHs IHp].
      cbn [sample_times publish_times last_clock].
      rewrite sample_fires_due, publish_fires_due. split.
      + destruct (sample_due (millis e) g) eqn:Hdue; cbn [app]; [|lia].
        assert (Hl : lastReadTime (exec (loop e) g) = wrap_ulong (clock_ms e)).
        { rewrite loop_lastReadTime, Hdue. reflexivity. }
        pose proof (sample_count_anchored es _ _ Hl Hmono).
        cbn [List.length]. rewrite Nat2Z.inj_succ. lia.
      + destruct (publish_due (millis e) g) eqn:Hdue; cbn [app]; [|lia].
        assert (Hl : lastSendTime (exec (loop e) g) = wrap_ulong (clock_ms e)).
        { rewrite loop_lastSendTime, Hdue. reflexivity. }
        pose proof (publish_count_anchored es _ _ Hl Hmono).
        cbn [List.length]. rewrite Nat2Z.inj_succ. lia. }
  intros g t0 Hmono. destruct (Hboth es g t0 Hmono) as [Hs Hp].
  split; [exact Hs|]. split; [exact Hp|].
  pose proof (run_requests_le_publishes es g) as Hle.
  unfold SEND_INTERVAL in *. lia.
Qed.

(** Iterations at 250, 260, 1000 and 1010 ms with the link up: 750 ms pass
    unattended, yet the run samples twice and sends twice. *)
Lemma firing_rate_bound_witness :
  let es := map (fun t => mkEnv t 1 0 true 200 "ok") [250; 260; 1000; 1010] in
  sample_times es initial = [250; 1000]
  /\ List.length (requests_of (run_trace es initial)) = 2%nat
  /\ SEND_INTERVAL
       * (Z.of_nat (List.length (requests_of (run_trace es initial))) - 1)
     <= 1010 - 0.
Proof.
  cbv zeta. split; [reflexivity|]. split; [reflexivity|].
  apply (firing_rate_bound
           (map (fun t => mkEnv t 1 0 true 200 "ok") [250; 260; 1000; 1010])
           initial 0).
  simpl. lia.
Defined.

(** ** Events and samples *)

(** X9. Two consecutive sample steps never both count an event: after a
    step that changed [eventCount] the input is recorded as triggered, so the
    next step leaves [eventCount] as it is, whatever it reads. *)
Theorem no_two_events_in_a_row (e1 e2 : env) (t1 t2 : Z) (g : globals) :
  let g1 := exec (sample e1 t1) g in
  let g2 := exec (sample e2 t2) g1 in
  eventCount g1 <> eventCount g -> eventCount g2 = eventCount g1.
Proof.
  cbv zeta. intros Hchg.
  rewrite (sample_eventCount e2 t2). rewrite sample_eventCount in Hchg.
  assert (Ht : triggered e1 = true).
  { destruct (triggered e1); [reflexivity|]. now cbn in Hchg. }
  pose proof (sample_lastReading e1 t1 g) as Hl. rewrite Ht in Hl.
  destruct (lastReading (exec (sample e1 t1) g) =? 0); [discriminate Hl|].
  now rewrite andb_false_r.
Qed.

(** Two triggered samples in a row from the initial globals count once. *)
Lemma no_two_events_in_a_row_witness :
  let e := mkEnv 30 0 0 true 200 "ok" in
  eventCount (exec (sample e 60) (exec (sample e 30) initial)) = 1.
Proof.
  cbv zeta.
  rewrite (no_two_events_in_a_row (mkEnv 30 0 0 true 200 "ok")
             (mkEnv 30 0 0 true 200 "ok") 30 60 initial).
  - reflexivity.
  - vm_compute. discriminate.
Defined.

(** X10. What the vibration pin does between two samples is never seen:
    over iterations that all fall less than [READ_INTERVAL] after the last
    sample, no pin is read and the sampled fields and [lastReadTime] stay as
    they were, whatever levels the pins have at those iterations. *)
Theorem pulses_between_samples_missed (es : list env) :
  forall (g : globals) (t0 : Z),
    lastReadTime g = wrap_ulong t0 ->
    clock_monotone t0 es ->
    last_clock t0 es - t0 < READ_INTERVAL ->
    SampleState (run es g) = SampleState g
    /\ lastReadTime (run es g) = lastReadTime g
    /\ sample_times es g = [].
Proof.
  induction es as [|e es IH]; intros g t0 Hl Hmono Hlast;
    cbn [run sample_times last_clock] in *; [repeat split|].
  destruct Hmono as [Hle Hmono].
  pose proof (clock_monotone_last es _ Hmono) as Hup.
  assert (Hdue : sample_due (millis e) g = false).
  { unfold sample_due, millis. rewrite Hl, ulong_sub_elapsed.
    - apply Z.leb_gt. lia.
    - unfold ULONG_MOD, READ_INTERVAL in *. lia. }
  assert (Ha : after_sample e g = g) by (unfold after_sample; now rewrite Hdue).
  assert (Hst : SampleState (exec (loop e) g) = SampleState g).
  { rewrite loop_exec, Ha. destruct (publish_due _ _); reflexivity. }
  assert (Hl' : lastReadTime (exec (loop e) g) = wrap_ulong t0).
  { rewrite loop_lastReadTime, Hdue. exact Hl. }
  assert (Hm0 : clock_monotone t0 es)
    by exact (clock_monotone_weaken es t0 (clock_ms e) Hle Hmono).
  assert (Hlast0 : last_clock t0 es - t0 < READ_INTERVAL).
  { destruct es; cbn [last_clock] in *; lia. }
  destruct (IH (exec (loop e) g) t0 Hl' Hm0 Hlast0) as (H1 & H2 & H3).
  rewrite sample_fires_due, Hdue, H1, H2, H3, Hst, Hl', Hl.
  repeat split.
Qed.

(** A sample at 30 ms that finds the input at rest; the input is then
    triggered at 40 and 50 ms and back at rest at 60 ms: no event. *)
Lemma pulses_between_samples_missed_witness :
  let g := run [mkEnv 30 1 0 true 200 "ok"] initial in
  let pulse := [mkEnv 40 0 0 true 200 "ok"; mkEnv 50 0 0 true 200 "ok"] in
  SampleState (run pulse g) = SampleState g
  /\ eventCount (run (pulse ++ [mkEnv 60 1 0 true 200 "ok"]) g) = 0.
Proof.
  cbv zeta.
  destruct (pulses_between_samples_missed
              [mkEnv 40 0 0 true 200 "ok"; mkEnv 50 0 0 true 200 "ok"]
              (run [mkEnv 30 1 0 true 200 "ok"] initial) 30)
    as (Hst & _ & _).
  - reflexivity.
  - simpl. lia.
  - unfold READ_INTERVAL. simpl. lia.
  - split; [exact Hst | reflexivity].
Defined.

(** ** Freshness *)

Lemma ulong_sub_diag (a : Z) : ulong_sub a a = 0.
Proof. unfold ulong_sub, wrap_ulong. now rewrite Z.sub_diag. Qed.

(** X11. When an iteration ends, the counter differences to
    [lastReadTime] and to [lastSendTime] are below [READ_INTERVAL] and
    [SEND_INTERVAL].  The body of a request is never built from a stale
    sample: either the iteration has just sampled, and the body carries the
    reading, the count and the gas value of this very iteration, or it has
    not, and then the body carries the stored sample, whose counter
    difference to now is below [READ_INTERVAL]; when less than [2^32] ms have
    passed since that sample was taken, this is its real age.  A further
    iteration at the same counter reading does nothing. *)
Theorem timers_fresh_after_iteration (e e' : env) (g : globals) :
  ulong_sub (millis e) (lastReadTime (exec (loop e) g)) < READ_INTERVAL
  /\ ulong_sub (millis e) (lastSendTime (exec (loop e) g)) < SEND_INTERVAL
  /\ (forall r : request,
        In r (requests_of (trace (loop e) g)) ->
        (sample_fires e g = true
         /\ req_body r
            = render_object
                [ ("device_id", JString DEVICE_ID);
                  ("vibration", JInt (lnot (vib_level e)));
                  ("event_count",
                   JInt (if (lnot (vib_level e) =? 1) && (lastReading g =? 0)
                         then wrap_int (eventCount g + 1) else eventCount g));
                  ("gas_raw", JInt (gas_level e));
                  ("gas_status",
                   JString (if 4000 <=? gas_level e then "RISK"
                            else if 3500 <=? gas_level e then "WARNING"
                            else "MEDIUM")) ])
        \/ (sample_fires e g = false
            /\ ulong_sub (millis e) (lastReadTime g) < READ_INTERVAL
            /\ (forall t0 : Z,
                  lastReadTime g = wrap_ulong t0 ->
                  0 <= clock_ms e - t0 < 2 ^ 32 ->
                  clock_ms e - t0 < READ_INTERVAL)
            /\ req_body r
               = render_object
                   [ ("device_id", JString DEVICE_ID);
                     ("vibration", JInt (currentReading g));
                     ("event_count", JInt (eventCount g));
                     ("gas_raw", JInt (gasRaw g));
                     ("gas_status", JString (gasStatus g)) ]))
  /\ (millis e' = millis e ->
      exec (loop e') (exec (loop e) g) = exec (loop e) g
      /\ trace (loop e') (exec (loop e) g) = []).
Proof.
  assert (Hr : ulong_sub (millis e) (lastReadTime (exec (loop e) g))
               < READ_INTERVAL).
  { rewrite loop_lastReadTime. unfold sample_due.
    destruct (Z.leb_spec READ_INTERVAL (ulong_sub (millis e) (lastReadTime g)));
      [rewrite ulong_sub_diag; reflexivity | assumption]. }
  assert (Hs : ulong_sub (millis e) (lastSendTime (exec (loop e) g))
               < SEND_INTERVAL).
  { rewrite loop_lastSendTime. unfold publish_due.
    destruct (Z.leb_spec SEND_INTERVAL (ulong_sub (millis e) (lastSendTime g)));
      [rewrite ulong_sub_diag; reflexivity | assumption]. }
  split; [exact Hr|]. split; [exact Hs|]. split.
  - intros r Hin. rewrite loop_requests in Hin.
    destruct (publish_due (millis e) g && wifi_connected e); [|destruct Hin].
    destruct Hin as [Hin|[]]. subst r. cbn [req_body].
    rewrite build_payload_render, sample_fires_due.
    unfold after_sample, publish_record.
    destruct (sample_due (millis e) g) eqn:Hdue.
    + left. split; [reflexivity|]. rewrite sample_exec. reflexivity.
    + right. split; [reflexivity|].
      assert (Hlt : ulong_sub (millis e) (lastReadTime g) < READ_INTERVAL).
      { unfold sample_due in Hdue. now apply Z.leb_gt. }
      split; [exact Hlt|]. split; [|reflexivity].
      intros t0 Ht0 Hel. unfold millis in Hlt.
      rewrite Ht0, ulong_sub_elapsed in Hlt by exact Hel. exact Hlt.
  - intros Hm.
    assert (Hsd : sample_due (millis e') (exec (loop e) g) = false).
    { unfold sample_due. apply Z.leb_gt. now rewrite Hm. }
    assert (Hpd : publish_due (millis e') (exec (loop e) g) = false).
    { unfold publish_due. apply Z.leb_gt. now rewrite Hm. }
    assert (Hid : after_sample e' (exec (loop e) g) = exec (loop e) g).
    { unfold after_sample. now rewrite Hsd. }
    rewrite loop_exec, loop_trace, Hid, Hsd, Hpd. split; reflexivity.
Qed.

(** A sample at 190 ms (rest, gas 3600), then an iteration at 200 ms that
    sends without sampling although the input is now triggered and the gas
    at 4000: the body carries the sample taken 10 ms earlier.  A second
    iteration at 200 ms does nothing. *)
Lemma timers_fresh_after_iteration_witness :
  let g := run [mkEnv 190 1 3600 true 200 "ok"] initial in
  let e := mkEnv 200 0 4000 true 200 "ok" in
  map req_body (requests_of (trace (loop e) g))
  = [json_text "{'device_id':'esp32_001','vibration':0,'event_count':0,'gas_raw':3600,'gas_status':'WARNING'}"]
  /\ run [e; e] g = run [e] g.
Proof.
  cbv zeta.
  pose proof (timers_fresh_after_iteration
                (mkEnv 200 0 4000 true 200 "ok")
                (mkEnv 200 0 4000 true 200 "ok")
                (run [mkEnv 190 1 3600 true 200 "ok"] initial))
    as (_ & _ & Hbody & Hidle).
  split.
  - assert (Hreq : exists r,
               requests_of
                 (trace (loop (mkEnv 200 0 4000 true 200 "ok"))
                    (run [mkEnv 190 1 3600 true 200 "ok"] initial)) = [r]).
    { eexists. reflexivity. }
    destruct Hreq as [r Hreq]. rewrite Hreq. cbn [map].
    destruct (Hbody r) as [[Hfire _]|(_ & _ & _ & Hb)].
    + rewrite Hreq. now left.
    + discriminate Hfire.
    + rewrite Hb. reflexivity.
  - cbn [run]. apply Hidle. reflexivity.
Defined.

(** ** The first request *)

Lemma nothing_before_first_sample (es : list env) :
  forall g : globals,
    lastReadTime g = lastSendTime g ->
    sample_times es g = [] ->
    publish_times es g = [] /\ run_trace es g = [] /\ run es g = g.
Proof.
  induction es as [|e es IH]; intros g Heq Hnil; [repeat split|].
  cbn [sample_times publish_times run run_trace] in *.
  apply app_eq_nil in Hnil. destruct Hnil as [Hfire Hrest].
  rewrite sample_fires_due in Hfire. rewrite publish_fires_due.
  assert (Hsd : sample_due (millis e) g = false).
  { destruct (sample_due (millis e) g); [discriminate Hfire | reflexivity]. }
  assert (Hpd : publish_due (millis e) g = false).
  { unfold sample_due in Hsd. unfold publish_due. rewrite <- Heq.
    apply Z.leb_gt in Hsd. apply Z.leb_gt.
    unfold READ_INTERVAL, SEND_INTERVAL in *. lia. }
  assert (Ha : after_sample e g = g).
  { unfold after_sample. now rewrite Hsd. }
  assert (Hid : exec (loop e) g = g).
  { rewrite loop_exec, publish_due_after_sample, Hpd. exact Ha. }
  assert (Htr : trace (loop e) g = []).
  { rewrite loop_trace, publish_due_after_sample, Hsd, Hpd. reflexivity. }
  rewrite Hid in *. rewrite Hpd, Htr. cbn [app]. now apply IH.
Qed.

(** X12. From the initial globals nothing is sent before the first
    sample.  As long as no iteration has sampled, no iteration has made any
    call at all, none has run the send branch, and the globals still have
    their initial values; and an iteration that then runs the send branch
    reads the two pins first: its trace is the two reads followed by the
    calls of the send, and with the link up the body posted carries this
    iteration's reading, event count, gas value and status, not the initial
    values. *)
Theorem no_publish_before_first_sample (es : list env) (e : env) :
  sample_times es initial = [] ->
  publish_times es initial = []
  /\ run_trace es initial = []
  /\ requests_of (run_trace es initial) = []
  /\ run es initial = initial
  /\ (publish_fires e (run es initial) = true ->
      let reading := lnot (vib_level e) in
      let body :=
        render_object
          [ ("device_id", JString DEVICE_ID);
            ("vibration", JInt reading);
            ("event_count", JInt (if reading =? 1 then 1 else 0));
            ("gas_raw", JInt (gas_level e));
            ("gas_status",
             JString (if 4000 <=? gas_level e then "RISK"
                      else if 3500 <=? gas_level e then "WARNING"
                      else "MEDIUM")) ] in
      trace (loop e) (run es initial)
      = [DigitalRead VIB_PIN; AnalogRead GAS_PIN]
          ++ (if wifi_connected e
              then
                [ HttpBegin BACKEND_URL;
                  HttpAddHeader "Content-Type" "application/json";
                  HttpAddHeader "Authorization" ("Bearer " ++ API_KEY)%string;
                  HttpPost body;
                  SerialPrint http_log_prefix;
                  SerialPrintln (String_of_int (http_code e)) ]
                ++ (if 0 <? http_code e
                    then [HttpGetString; SerialPrintln (http_response e)]
                    else [])
                ++ [HttpEnd]
              else [SerialPrintln "WiFi not connected"])).
Proof.
  intros Hnil.
  destruct (nothing_before_first_sample es initial eq_refl Hnil)
    as (Hp & Htr & Hrun).
  split; [exact Hp|]. split; [exact Htr|].
  split; [rewrite Htr; reflexivity|]. split; [exact Hrun|].
  rewrite Hrun, publish_fires_due. intros Hpd. cbv zeta.
  assert (Hsd : sample_due (millis e) initial = true).
  { unfold sample_due, publish_due in *.
    cbn [lastReadTime lastSendTime initial] in *.
    apply Z.leb_le in Hpd. apply Z.leb_le.
    unfold READ_INTERVAL, SEND_INTERVAL in *. lia. }
  destruct (both_due_calls e initial Hsd Hpd) as [_ Hcalls].
  cbv zeta in Hcalls. rewrite Hcalls.
  destruct (lnot (vib_level e) =? 1); reflexivity.
Qed.

(** Iterations at 5 and 20 ms do nothing; the one at 250 ms reads the pins
    and then posts what it has read. *)
Lemma no_publish_before_first_sample_witness :
  let es := [mkEnv 5 0 4000 true 200 "ok"; mkEnv 20 0 4000 true 200 "ok"] in
  let e := mkEnv 250 0 4000 true 200 "ok" in
  run_trace es initial = []
  /\ firstn 3 (trace (loop e) (run es initial))
     = [DigitalRead VIB_PIN; AnalogRead GAS_PIN; HttpBegin BACKEND_URL]
  /\ map req_body (requests_of (trace (loop e) (run es initial)))
     = [json_text "{'device_id':'esp32_001','vibration':1,'event_count':1,'gas_raw':4000,'gas_status':'RISK'}"].
Proof.
  cbv zeta.
  destruct (no_publish_before_first_sample
              [mkEnv 5 0 4000 true 200 "ok"; mkEnv 20 0 4000 true 200 "ok"]
              (mkEnv 250 0 4000 true 200 "ok"))
    as (_ & Htr & _ & _ & Hfirst).
  - reflexivity.
  - split; [exact Htr|].
    rewrite Hfirst by reflexivity. split; reflexivity.
Defined.

(** ** [setup] *)

Lemma total_delay_app (t1 t2 : list boot_event) :
  total_delay (t1 ++ t2) = total_delay t1 + total_delay t2.
Proof.
  induction t1 as [|ev t1 IH]; [reflexivity|].
  destruct ev; cbn [app total_delay]; rewrite IH; lia.
Qed.

Lemma waiting_round_dots (t : list boot_event) :
  filter is_dot (WifiStatus :: Delay 500 :: BootPrint "." :: t)
  = BootPrint "." :: filter is_dot t.
Proof. reflexivity. Qed.

Lemma waiting_round_delay (t : list boot_event) :
  total_delay (WifiStatus :: Delay 500 :: BootPrint "." :: t)
  = 500 + total_delay t.
Proof. reflexivity. Qed.

Lemma wait_connected_returns (polls : list bool) :
  snd (wait_connected polls) <> None <-> In true polls.
Proof.
  induction polls as [|c polls IH]; cbn [wait_connected In snd].
  - split; [intros H; now contradiction H | intros []].
  - destruct c; cbn [snd].
    + split; [now left | discriminate].
    + destruct (wait_connected polls) as [t r]. cbn [snd] in *.
      rewrite IH. split; [now right | intros [H|H]; [discriminate H | exact H]].
Qed.

Lemma wait_connected_quiet (polls : list bool) :
  existsb is_connected_line (fst (wait_connected polls)) = false.
Proof.
  induction polls as [|c polls IH]; [reflexivity|].
  cbn [wait_connected]. destruct c; [reflexivity|].
  destruct (wait_connected polls) as [t r]. exact IH.
Qed.

Lemma wait_connected_waiting (polls : list bool) :
  snd (wait_connected polls) = None ->
  List.length (filter is_dot (fst (wait_connected polls))) = List.length polls
  /\ total_delay (fst (wait_connected polls))
     = 500 * Z.of_nat (List.length polls).
Proof.
  induction polls as [|c polls IH]; [split; reflexivity|].
  cbn [wait_connected]. destruct c; [discriminate|].
  destruct (wait_connected polls) as [t r]. cbn [fst snd] in *.
  intros Hr. destruct (IH Hr) as [Hd Ht].
  rewrite waiting_round_dots, waiting_round_delay.
  cbn [List.length]. rewrite Hd, Ht, Nat2Z.inj_succ.
  split; [reflexivity | lia].
Qed.

Lemma wait_connected_after (k : nat) (rest : list bool) :
  wait_connected (repeat false k ++ true :: rest)
  = (List.concat (repeat [WifiStatus; Delay 500; BootPrint "."] k) ++ [WifiStatus],
     Some rest).
Proof.
  induction k as [|k IH]; [reflexivity|].
  cbn [repeat app wait_connected List.concat]. now rewrite IH.
Qed.

Lemma waiting_rounds_delay (k : nat) :
  total_delay (List.concat (repeat [WifiStatus; Delay 500; BootPrint "."] k))
  = 500 * Z.of_nat k
  /\ List.length
       (filter is_dot (List.concat (repeat [WifiStatus; Delay 500; BootPrint "."] k)))
     = k.
Proof.
  induction k as [|k [IHd IHn]]; [split; reflexivity|].
  cbn [repeat List.concat app].
  rewrite waiting_round_dots, waiting_round_delay.
  cbn [List.length]. rewrite IHd, IHn, Nat2Z.inj_succ.
  split; [lia | reflexivity].
Qed.

(** X13. [setup] returns exactly when some [WiFi.status()] poll reports
    the link up, and prints its WiFi connected line exactly then; as long as
    every poll fails it keeps waiting, printing one dot and pausing 500 ms
    per poll. *)
Theorem setup_returns_iff_connected (polls : list bool) (ip : string) :
  (snd (setup polls ip) <> None <-> In true polls)
  /\ (existsb is_connected_line (fst (setup polls ip)) = true
      <-> In true polls)
  /\ (snd (setup polls ip) = None ->
      List.length (filter is_dot (fst (setup polls ip))) = List.length polls
      /\ total_delay (fst (setup polls ip))
         = 500 * Z.of_nat (List.length polls)).
Proof.
  pose proof (wait_connected_returns polls) as Hret.
  pose proof (wait_connected_quiet polls) as Hquiet.
  pose proof (wait_connected_waiting polls) as Hwait.
  unfold setup. destruct (wait_connected polls) as [t [rest|]];
    cbn [fst snd] in *.
  - split; [split; [intros _; apply Hret; discriminate | discriminate]|].
    split; [|discriminate].
    split; [intros _; apply Hret; discriminate|].
    intros _. cbn [app existsb is_connected_line]. rewrite existsb_app.
    cbn [existsb is_connected_line]. rewrite String.eqb_refl.
    cbn [orb]. now rewrite orb_true_r.
  - split; [exact Hret|]. split.
    + rewrite <- Hret. cbn [app existsb is_connected_line orb].
      rewrite Hquiet. split; [discriminate | intros H; now contradiction H].
    + intros _. destruct (Hwait eq_refl) as [Hd Ht].
      cbn [app filter is_dot total_delay].
      change (String.eqb "Connecting to WiFi" ".") with false.
      cbn iota. split; assumption.
Qed.

(** Three failed polls and nothing more: still waiting after three dots;
    with a fourth poll that succeeds, [setup] returns. *)
Lemma setup_returns_iff_connected_witness :
  snd (setup [false; false; false] "192.168.137.2") = None
  /\ total_delay (fst (setup [false; false; false] "192.168.137.2")) = 1500
  /\ snd (setup [false; false; false; true] "192.168.137.2") <> None.
Proof.
  destruct (setup_returns_iff_connected [false; false; false] "192.168.137.2")
    as (_ & _ & Hwait).
  destruct (setup_returns_iff_connected [false; false; false; true]
              "192.168.137.2") as (Hret & _).
  split; [reflexivity|].
  split; [apply Hwait; reflexivity | apply Hret; simpl; tauto].
Defined.

(** X14. When the link comes up at poll number [k + 1], [setup] has
    printed [k] dots and paused [500 * k] ms, its calls are the
    configuration of the two pins and of the WiFi station, [k] rounds of
    poll, pause and dot, the successful poll and the three closing prints,
    and the polls after the successful one are left for later. *)
Theorem setup_connects_after (k : nat) (rest : list bool) (ip : string) :
  let polls := repeat false k ++ true :: rest in
  setup polls ip
  = ([ SerialBegin 115200;
       PinMode VIB_PIN INPUT_PULLUP;
       PinMode GAS_PIN INPUT;
       WifiModeSta;
       WifiBegin WIFI_SSID WIFI_PASS;
       BootPrint "Connecting to WiFi" ]
     ++ List.concat (repeat [WifiStatus; Delay 500; BootPrint "."] k)
     ++ [ WifiStatus;
          BootPrintln (String (ascii_of_nat 10) "WiFi connected");
          BootPrint "ESP32 IP: ";
          WifiLocalIP;
          BootPrintln ip ],
     Some rest)
  /\ total_delay (fst (setup polls ip)) = 500 * Z.of_nat k
  /\ List.length (filter is_dot (fst (setup polls ip))) = k.
Proof.
  cbv zeta. unfold setup. rewrite wait_connected_after. cbn [fst].
  destruct (waiting_rounds_delay k) as [Hd Hn].
  split; [now rewrite <- !app_assoc|].
  split.
  - cbn [app total_delay]. rewrite !total_delay_app, Hd. cbn. lia.
  - cbn [app filter is_dot].
    change (String.eqb "Connecting to WiFi" ".") with false. cbn iota.
    rewrite !filter_app, !length_app, Hn.
    cbn [filter is_dot app List.length].
    change (String.eqb "ESP32 IP: " ".") with false. cbn. lia.
Qed.

(** ** A run seen through its samples *)

(** X15. Over a run of [loop], [eventCount] grows by the number of rising
    edges among the readings taken at the iterations that sampled, as long
    as it stays within [INT_MAX]; the levels the pin has at the other
    iterations do not enter the count. *)
Theorem run_counts_sampled_edges (es : list env) (g : globals) :
  INT_MIN <= eventCount g ->
  eventCount g
    + rising_edges (negb (lastReading g =? 0))
        (map triggered (sampled es g)) <= INT_MAX ->
  eventCount (run es g)
  = eventCount g
    + rising_edges (negb (lastReading g =? 0)) (map triggered (sampled es g)).
Proof.
  intros Hlo Hhi.
  destruct (run_as_sample_steps es g g eq_refl eq_refl) as [Hst _].
  assert (He : eventCount (run es g)
               = eventCount (sample_steps (sampled es g) g)).
  { unfold SampleState in Hst. now injection Hst. }
  rewrite He. now apply sample_steps_eventCount.
Qed.

(** Samples at 30, 60, 90 and 120 ms read rest, triggered, rest, triggered;
    the iterations at 40 and 100 ms, which do not sample, see the opposite
    level. *)
Lemma run_counts_sampled_edges_witness :
  let es := map (fun '(t, level) => mkEnv t level 0 false 0 EmptyString)
                [(30, 1); (40, 0); (60, 0); (90, 1); (100, 0); (120, 0)] in
  map clock_ms (sampled es initial) = [30; 60; 90; 120]
  /\ eventCount (run es initial) = 0 + 2.
Proof.
  cbv zeta. split; [reflexivity|].
  rewrite run_counts_sampled_edges.
  - reflexivity.
  - unfold INT_MIN. simpl. lia.
  - unfold INT_MAX.
    change (eventCount initial) with 0.
    change (rising_edges _ _) with 2. lia.
Defined.

Lemma sample_steps_latest (es : list env) :
  forall (g : globals) (e : env),
    let g' := sample_steps (es ++ [e]) g in
    currentReading g' = lnot (vib_level e)
    /\ gasRaw g' = gas_level e
    /\ gasStatus g' = classify (gas_level e)
    /\ lastReadTime g' = millis e.
Proof.
  induction es as [|e0 es IH]; intros g e; cbn [app sample_steps].
  - cbv zeta. rewrite sample_exec. repeat split.
  - apply IH.
Qed.

(** X16. The globals always hold the latest sample: after a run in which
    the last sampling iteration was [e], [currentReading], [gasRaw] and
    [gasStatus] are the inverted pin level, the gas value and the status of
    that iteration, and [lastReadTime] is its counter reading, whatever the
    later iterations saw. *)
Theorem run_holds_latest_sample (es : list env) (g : globals)
        (before : list env) (e : env) :
  sampled es g = before ++ [e] ->
  currentReading (run es g) = lnot (vib_level e)
  /\ gasRaw (run es g) = gas_level e
  /\ gasStatus (run es g) = classify (gas_level e)
  /\ lastReadTime (run es g) = millis e.
Proof.
  intros Hs.
  destruct (run_as_sample_steps es g g eq_refl eq_refl) as [Hst Hlr].
  rewrite Hs in Hst, Hlr.
  destruct (sample_steps_latest before g e) as (Hc & Hg & Hgs & Ht).
  unfold SampleState in Hst. injection Hst as H1 _ _ H4 H5.
  rewrite H1, H4, H5, Hlr. repeat split; assumption.
Qed.

(** A sample at 30 ms (rest, gas 3600) followed by iterations at 40 and
    50 ms that see the input triggered and the gas at 4000. *)
Lemma run_holds_latest_sample_witness :
  let es := [ mkEnv 30 1 3600 true 200 "ok";
              mkEnv 40 0 4000 true 200 "ok";
              mkEnv 50 0 4000 true 200 "ok" ] in
  gasRaw (run es initial) = 3600
  /\ gasStatus (run es initial) = "WARNING".
Proof.
  cbv zeta.
  destruct (run_holds_latest_sample
              [ mkEnv 30 1 3600 true 200 "ok";
                mkEnv 40 0 4000 true 200 "ok";
                mkEnv 50 0 4000 true 200 "ok" ]
              initial [] (mkEnv 30 1 3600 true 200 "ok"))
    as (_ & Hg & Hs & _).
  - reflexivity.
  - split; [exact Hg | exact Hs].
Defined.
